(** * Sonar Issue Finder: the issue aggregation pipeline of [src/extension.ts]

    A shallow embedding of the extension's issue model, severity mapper,
    grouped issue store, remote fetch client, workspace reconciler and refresh
    orchestrator, followed by the properties the specification states about
    them.  JavaScript strings are [string], numbers that hold page indexes and
    line numbers are [Z], the [Map] objects are [gmap]s, and code that throws,
    logs or talks to the host editor runs in a small state-and-exception
    monad over an explicit [World]. *)

From Stdlib Require Import Ascii ZArith Lia.
From stdpp Require Import base strings pretty list gmap sorting.

Local Open Scope Z_scope.
Local Open Scope string_scope.
Local Open Scope list_scope.

(** ** JavaScript values and string primitives *)

Module Js.

(** Truthiness of a value that is a string when present: [undefined],
    [null] and the empty string are falsy. *)
Definition truthy (v : option string) : bool :=
  match v with
  | Some s => negb (String.eqb s "")
  | None => false
  end.

(** [v || d] for a string-or-missing [v]. *)
Definition or (v : option string) (d : string) : string :=
  match v with
  | Some s => if String.eqb s "" then d else s
  | None => d
  end.

(** [v || d] for a number-or-missing [v]: zero is falsy. *)
Definition orZ (v : option Z) (d : Z) : Z :=
  match v with
  | Some n => if Z.eqb n 0 then d else n
  | None => d
  end.

(** A value interpolated in a template literal: a missing one prints as
    the word [undefined]. *)
Definition tpl (v : option string) : string :=
  match v with
  | Some s => s
  | None => "undefined"
  end.

Definition startsWith (s p : string) : bool := String.prefix p s.

Definition endsWith (s p : string) : bool :=
  String.prefix (String.rev p) (String.rev s).

Fixpoint drop (n : nat) (s : string) : string :=
  match n, s with
  | O, _ => s
  | S n', String _ s' => drop n' s'
  | S _, EmptyString => EmptyString
  end.

(** [s.replace(pat, rep)] with a string pattern: only the first
    occurrence of [pat], wherever it stands, is replaced. *)
Fixpoint replace (pat rep s : string) : string :=
  if String.prefix pat s then rep +:+ drop (String.length pat) s
  else match s with
       | EmptyString => EmptyString
       | String c s' => String c (replace pat rep s')
       end.

(** [s.replace(/^\/+/, "")]: the leading slashes are removed. *)
Fixpoint stripLeadingSlashes (s : string) : string :=
  match s with
  | String "/"%char s' => stripLeadingSlashes s'
  | _ => s
  end.

(** [l.join(sep)]. *)
Definition join (sep : string) (l : list string) : string :=
  String.concat sep l.

(** *** The order of strings

    JavaScript compares strings by their UTF-16 code units.  A string here
    holds the UTF-8 bytes of the text, so the code units are decoded from
    the bytes: one unit for a character of one, two or three bytes, a
    surrogate pair for a character of four; a byte that starts no
    well-formed sequence decodes to U+FFFD. *)

(** The payload of a continuation byte [10xxxxxx]. *)
Definition continuation (b : ascii) : option N :=
  let n := N_of_ascii b in
  if N.leb 128 n && N.ltb n 192 then Some (n - 128)%N else None.

Fixpoint codeUnits (s : string) : list N :=
  match s with
  | EmptyString => []
  | String b0 s1 =>
      let n0 := N_of_ascii b0 in
      let illFormed := 65533%N :: codeUnits s1 in
      if N.ltb n0 128 then n0 :: codeUnits s1
      else if N.ltb n0 192 then illFormed
      else if N.ltb n0 224 then
        match s1 with
        | String b1 s2 =>
            match continuation b1 with
            | Some c1 => ((n0 - 192) * 64 + c1)%N :: codeUnits s2
            | None => illFormed
            end
        | EmptyString => illFormed
        end
      else if N.ltb n0 240 then
        match s1 with
        | String b1 (String b2 s3) =>
            match continuation b1, continuation b2 with
            | Some c1, Some c2 =>
                ((n0 - 224) * 4096 + c1 * 64 + c2)%N :: codeUnits s3
            | _, _ => illFormed
            end
        | _ => illFormed
        end
      else if N.ltb n0 248 then
        match s1 with
        | String b1 (String b2 (String b3 s4)) =>
            match continuation b1, continuation b2, continuation b3 with
            | Some c1, Some c2, Some c3 =>
                let cp := ((n0 - 240) * 262144 + c1 * 4096 + c2 * 64 + c3)%N in
                if N.ltb cp 65536 then illFormed
                else (55296 + (cp - 65536) / 1024)%N
                     :: (56320 + (cp - 65536) mod 1024)%N
                     :: codeUnits s4
            | _, _, _ => illFormed
            end
        | _ => illFormed
        end
      else illFormed
  end.

(** [l1 <= l2] for sequences of code units: the first unit that differs
    decides, and a prefix comes first. *)
Fixpoint unitsLe (l1 l2 : list N) : bool :=
  match l1, l2 with
  | [], _ => true
  | _ :: _, [] => false
  | a :: l1', b :: l2' => N.ltb a b || (N.eqb a b && unitsLe l1' l2')
  end.

(** [!(t < s)] for strings, the order [Array.prototype.sort()] sorts by
    when it is given no comparator. *)
Definition le (s t : string) : Prop := Is_true (unitsLe (codeUnits s) (codeUnits t)).

#[global] Instance le_dec : RelDecision le := fun s t => Is_true_dec _.

End Js.

(** ** Issue model *)

Record SonarIssue := mkSonarIssue {
  message : string;
  rule : string;
  severity : string;
  filePath : string;
  line : Z
}.

#[global] Instance SonarIssue_eq_dec : EqDecision SonarIssue.
Proof. solve_decision. Defined.

(** The five labels of the shared severity scale. *)
Inductive Severity := BLOCKER | CRITICAL | MAJOR | MINOR | INFO.

Definition severityLabel (s : Severity) : string :=
  match s with
  | BLOCKER => "BLOCKER"
  | CRITICAL => "CRITICAL"
  | MAJOR => "MAJOR"
  | MINOR => "MINOR"
  | INFO => "INFO"
  end.

(** ** Severity mapper *)

(** The lint engine reports a level as [number | string]; [EslintOther]
    stands for any value that is neither an integer nor a string. *)
Inductive EslintSeverity :=
| EslintNum (n : Z)
| EslintStr (s : string)
| EslintOther.

(** [v === n] and [v === s] for a level [v]. *)
Definition isNum (v : EslintSeverity) (n : Z) : bool :=
  match v with EslintNum m => Z.eqb m n | _ => false end.

Definition isStr (v : EslintSeverity) (s : string) : bool :=
  match v with EslintStr t => String.eqb t s | _ => false end.

Definition mapEslintSeverity (eslintSeverity : EslintSeverity) : string :=
  if isNum eslintSeverity 2 || isStr eslintSeverity "error" then "CRITICAL"
  else if isNum eslintSeverity 1 || isStr eslintSeverity "warn" then "MAJOR"
  else "INFO".

Inductive DiagnosticSeverity := DiagError | DiagWarning | DiagInformation | DiagHint.

Definition mapSeverity (sev : string) : DiagnosticSeverity * string :=
  if String.eqb sev "BLOCKER" then (DiagError, "BLOCKER")
  else if String.eqb sev "CRITICAL" then (DiagError, "CRITICAL")
  else if String.eqb sev "MAJOR" then (DiagWarning, "MAJOR")
  else if String.eqb sev "MINOR" then (DiagInformation, "MINOR")
  else if String.eqb sev "INFO" then (DiagInformation, "INFO")
  else (DiagInformation, "INFO").

(** The severity filter of [refreshAllIssues]:
    [issues.filter(issue => selectedSeverities.includes(issue.severity))]. *)
Definition filterBySeverity (selectedSeverities : list string)
    (issues : list SonarIssue) : list SonarIssue :=
  filter (fun issue => severity issue ∈ selectedSeverities) issues.

(** ** Grouped issue store and view adapter *)

Module TreeView.
(** The host's tree view, as far as the provider touches it. *)
Record t := mk { message : option string }.
End TreeView.

Inductive TreeItemElement :=
| FileNode (path : string)
| IssueNode (issue : SonarIssue).

(** What a listener of [onDidChangeTreeData] finds when the event fires. *)
Record ChangeEvent := mkChangeEvent {
  seenIssuesByFile : gmap string (list SonarIssue);
  seenTreeView : option TreeView.t
}.

Record SonarIssuesProvider := mkProvider {
  issuesByFile : gmap string (list SonarIssue);
  treeView : option TreeView.t;
  fired : list ChangeEvent
}.

(** [new SonarIssuesProvider()] *)
Definition newProvider : SonarIssuesProvider :=
  {| issuesByFile := ∅; treeView := None; fired := [] |}.

Definition setTreeView (tv : TreeView.t) (p : SonarIssuesProvider) : SonarIssuesProvider :=
  {| issuesByFile := issuesByFile p; treeView := Some tv; fired := fired p |}.

Definition noIssuesMessage : string := " All good! No issues found.".

(** One turn of the [forEach] of [setIssues]. *)
Definition groupIssue (m : gmap string (list SonarIssue)) (issue : SonarIssue)
    : gmap string (list SonarIssue) :=
  let m1 := if bool_decide (is_Some (m !! filePath issue)) then m
            else <[filePath issue := []]> m in
  alter (fun l => l ++ [issue]) (filePath issue) m1.

Definition setIssues (issues : list SonarIssue) (p : SonarIssuesProvider)
    : SonarIssuesProvider :=
  let cleared : gmap string (list SonarIssue) := ∅ in
  let grouped := foldl groupIssue cleared issues in
  let tv :=
    match treeView p with
    | Some _ =>
        if bool_decide (issues = []) then Some (TreeView.mk (Some noIssuesMessage))
        else Some (TreeView.mk None)
    | None => None
    end in
  {| issuesByFile := grouped;
     treeView := tv;
     fired := fired p ++ [mkChangeEvent grouped tv] |}.

(** [!element] for the optional argument of [getChildren]. *)
Definition elementMissing (element : option TreeItemElement) : bool :=
  match element with
  | None => true
  | Some (FileNode s) => negb (Js.truthy (Some s))
  | Some (IssueNode _) => false
  end.

(** [Array.from(m.keys()).sort()]: the keys are distinct, so the order in
    which the [Map] hands them out does not show after sorting. *)
Definition sortedKeys (m : gmap string (list SonarIssue)) : list string :=
  merge_sort Js.le (map_to_list m).*1.

Definition getChildren (p : SonarIssuesProvider) (element : option TreeItemElement)
    : list TreeItemElement :=
  if elementMissing element then FileNode <$> sortedKeys (issuesByFile p)
  else match element with
       | Some (FileNode f) => IssueNode <$> default [] (issuesByFile p !! f)
       | _ => []
       end.

(** ** Scope modes *)

Inductive Mode := OverallAll | OverallFile | NewAll | NewFile.

(** The string each mode is in the source. *)
Definition modeName (mode : Mode) : string :=
  match mode with
  | OverallAll => "overall-all"
  | OverallFile => "overall-file"
  | NewAll => "new-all"
  | NewFile => "new-file"
  end.

(** ** Remote records, requests and responses *)

Module Raw.
(** An element of [data.issues]: every field may be missing. *)
Record TextRange := mkTextRange { startLine : option Z }.
Record Issue := mk {
  component : option string;
  message : option string;
  rule : option string;
  severity : option string;
  textRange : option TextRange
}.
End Raw.

Module Config.
(** The object parsed from [.vscode/sonar-config.json]. *)
Record t := mk {
  server : option string;
  token : option string;
  projectKey : option string
}.
End Config.

Module Request.
(** The GET request of [fetchIssues], its URL kept in parts:
    [<server>/api/issues/search?componentKeys=<componentKeys>&severities=<severities>&statuses=<statuses>&p=<p>&ps=<ps><extraFilter>]
    with the user name of the basic-auth header. *)
Record t := mk {
  server : string;
  componentKeys : string;
  severities : string;
  statuses : string;
  p : Z;
  ps : Z;
  extraFilter : string;
  authUser : string
}.
End Request.

(** A thrown value: an [Error] object with its message, or a value that is
    neither an [Error] nor a string. *)
Inductive Exn :=
| JsError (message : string)
| JsThrown.

Definition exnMessage (e : Exn) : option string :=
  match e with
  | JsError m => Some m
  | JsThrown => None
  end.

Definition typeError : Exn := JsError "TypeError".

Record Paging := mkPaging { total : option Z }.

Record SearchResponse := mkSearchResponse {
  issues : option (list Raw.Issue);
  paging : option Paging
}.

(** What [await fetch(...)] gives: the promise rejects, or a response
    arrives with its [ok] flag and the outcome of [res.json()]. *)
Inductive FetchResult :=
| NetworkFailure (e : Exn)
| HttpResponse (ok : bool) (json : Exn + SearchResponse).

(** ** The lint engine's results *)

Record LintMessage := mkLintMessage {
  lintText : string;
  ruleId : option string;
  lintSeverity : EslintSeverity;
  lintLine : Z
}.

Record LintResult := mkLintResult {
  resultFilePath : string;
  messages : list LintMessage
}.

(** ** The host: what a refresh reads, and what it changes *)

Record Env := mkEnv {
  (** [vscode.workspace.workspaceFolders], each folder by its [uri.fsPath] *)
  workspaceFolders : option (list string);
  (** [fs.existsSync] *)
  existsSync : string → bool;
  (** [JSON.parse(fs.readFileSync(path, "utf8"))] *)
  readConfig : string → Exn + Config.t;
  (** [vscode.window.activeTextEditor?.document.uri.fsPath] *)
  activeFile : option string;
  (** the [sonarExtension.selectedSeverities] setting, when set *)
  settingSelectedSeverities : option (list string);
  (** the remote server behind [fetch] *)
  fetch : Request.t → FetchResult;
  (** [vscode.workspace.findFiles(include, exclude)], as [fsPath]s *)
  findFiles : string → string → list string;
  (** [new ESLint(...).lintFiles(files)] *)
  lintFiles : list string → Exn + list LintResult;
  (** [path.join] and [path.relative] *)
  pathJoin : list string → string;
  pathRelative : string → string → string
}.

Module Diagnostic.
Record t := mk {
  range : Z * Z * Z * Z;
  message : string;
  severity : DiagnosticSeverity;
  source : string
}.
End Diagnostic.

Record StatusBarItem := mkStatusBarItem {
  text : string;
  tooltip : string
}.

(** The effects a refresh has on the outside, in the order they happen. *)
Inductive Event :=
| ShowWarningMessage (m : string)
| ShowErrorMessage (m : string)
| ShowInformationMessage (m : string)
| ConsoleLog (m : string)
| ConsoleError (m : string)
| HttpRequest (r : Request.t)
| LintFiles (files : list string).

Record World := mkWorld {
  diagnosticCollection : gmap string (list Diagnostic.t);
  statusBarItem : option StatusBarItem;
  currentMode : Mode;
  selectedSeverities : list string;
  autoRefreshEnabled : bool;
  (** the provider [activate] wires to the visible tree view *)
  provider : SonarIssuesProvider;
  trace : list Event
}.

Definition withDiagnostics (d : gmap string (list Diagnostic.t)) (w : World) : World :=
  mkWorld d (statusBarItem w) (currentMode w) (selectedSeverities w)
          (autoRefreshEnabled w) (provider w) (trace w).

Definition withStatusBar (s : option StatusBarItem) (w : World) : World :=
  mkWorld (diagnosticCollection w) s (currentMode w) (selectedSeverities w)
          (autoRefreshEnabled w) (provider w) (trace w).

Definition withAutoRefresh (b : bool) (w : World) : World :=
  mkWorld (diagnosticCollection w) (statusBarItem w) (currentMode w)
          (selectedSeverities w) b (provider w) (trace w).

Definition withProvider (p : SonarIssuesProvider) (w : World) : World :=
  mkWorld (diagnosticCollection w) (statusBarItem w) (currentMode w)
          (selectedSeverities w) (autoRefreshEnabled w) p (trace w).

Definition withTrace (t : list Event) (w : World) : World :=
  mkWorld (diagnosticCollection w) (statusBarItem w) (currentMode w)
          (selectedSeverities w) (autoRefreshEnabled w) (provider w) t.

(** ** The monad of an [async] function body

    A computation runs on a [World] and returns a value, throws, or is cut
    off when the fuel of the one unbounded loop runs out. *)

Inductive Res (A : Type) :=
| Val (a : A)
| Raise (e : Exn)
| OutOfFuel.
Arguments Val {A} a.
Arguments Raise {A} e.
Arguments OutOfFuel {A}.

Definition M (A : Type) : Type := World → Res A * World.

Definition ret {A} (a : A) : M A := fun w => (Val a, w).

Definition bind {A B} (m : M A) (k : A → M B) : M B :=
  fun w =>
    match m w with
    | (Val a, w') => k a w'
    | (Raise e, w') => (Raise e, w')
    | (OutOfFuel, w') => (OutOfFuel, w')
    end.

Definition throw {A} (e : Exn) : M A := fun w => (Raise e, w).

Definition outOfFuel {A} : M A := fun w => (OutOfFuel, w).

(** [try { m } catch (e) { h e }] *)
Definition tryCatch {A} (m : M A) (h : Exn → M A) : M A :=
  fun w =>
    match m w with
    | (Raise e, w') => h e w'
    | r => r
    end.

Definition gets {A} (f : World → A) : M A := fun w => (Val (f w), w).

Definition modify (f : World → World) : M unit := fun w => (Val tt, f w).

Definition emit (ev : Event) : M unit :=
  modify (fun w => withTrace (trace w ++ [ev]) w).

(** A value that is there, or the exception its computation threw. *)
Definition liftE {A} (r : Exn + A) : M A :=
  match r with
  | inl e => throw e
  | inr a => ret a
  end.

Declare Scope js_scope.
Delimit Scope js_scope with js.
Notation "x <- m ;; k" := (bind m (fun x => k))
  (at level 20, m at level 99, k at level 200, only parsing) : js_scope.
Notation "m ;; k" := (bind m (fun _ => k))
  (at level 100, k at level 200, right associativity, only parsing) : js_scope.
Local Open Scope js_scope.

(** ** The functions of the extension *)

Definition pageSize : Z := 500.

(** [total <= n] where [total] may be [undefined]: the comparison is then
    false. *)
Definition totalCovered (total : option Z) (n : Z) : bool :=
  match total with
  | Some t => Z.leb t n
  | None => false
  end.

Section Extension.

Variable env : Env.

(** [await fetch(...)]: the request goes out, and the promise may reject. *)
Definition httpFetch (r : Request.t) : M (bool * (Exn + SearchResponse)) :=
  emit (HttpRequest r) ;;
  match fetch env r with
  | NetworkFailure e => throw e
  | HttpResponse ok json => ret (ok, json)
  end.

(** The [while (true)] loop of [fetchIssues], from [page] on, with what
    [allIssues] holds so far; [request page] is the request for a page. *)
Fixpoint fetchPages (fuel : nat) (request : Z → Request.t) (page : Z)
    (allIssues : list Raw.Issue) : M (list Raw.Issue) :=
  match fuel with
  | O => outOfFuel
  | S fuel' =>
      res <- httpFetch (request page) ;;
      if negb (fst res) then ret allIssues
      else
        data <- liftE (snd res) ;;
        match issues data with
        | None | Some [] => ret allIssues
        | Some pageIssues =>
            let allIssues' := allIssues ++ pageIssues in
            pg <- match paging data with
                  | Some pg => ret pg
                  | None => throw typeError
                  end ;;
            if totalCovered (total pg) (page * pageSize) then ret allIssues'
            else fetchPages fuel' request (page + 1) allIssues'
        end
  end.

(** The query string's tail for a file filter:
    [`&componentKeys=${projectKey}:${path.relative(root, filePath)}`]. *)
Definition fileFilter (root : string) (projectKey : option string) (filePath : string)
    : string :=
  "&componentKeys=" +:+ Js.tpl projectKey +:+ ":" +:+ pathRelative env root filePath.

(** The request for one page. *)
Definition searchRequest (server token projectKey : option string)
    (extraFilter : string) (page : Z) : Request.t :=
  let severities := default ["BLOCKER"] (settingSelectedSeverities env) in
  let severitiesParam := Js.join "," severities in
  let statuses := "OPEN,REOPENED" in
  Request.mk (Js.tpl server) (Js.tpl projectKey) severitiesParam statuses
             page pageSize extraFilter (Js.tpl token).

Definition fetchIssues (fuel : nat) (server token projectKey filePath : option string)
    : M (list Raw.Issue) :=
  extraFilter <-
    (if Js.truthy filePath then
       match workspaceFolders env with
       | Some (root :: _) => ret (fileFilter root projectKey (Js.tpl filePath))
       | _ => throw typeError
       end
     else ret "") ;;
  emit (ConsoleLog ("extraFilter " +:+ extraFilter)) ;;
  fetchPages fuel (searchRequest server token projectKey extraFilter) 1 [].

(** The extra filter [fetchIssues] computes in a workspace rooted at
    [root], and the world once it has logged it. *)
Definition extraFilterOf (root : string) (projectKey filePath : option string) : string :=
  if Js.truthy filePath then fileFilter root projectKey (Js.tpl filePath) else "".

Definition started (root : string) (projectKey filePath : option string) (w : World)
    : World :=
  withTrace
    (trace w ++ [ConsoleLog ("extraFilter " +:+ extraFilterOf root projectKey filePath)]) w.

(** *** The pagination rules, as the specification words them

    What the response to the request for [page] means for the loop. *)
Inductive Verdict :=
| Rejects (e : Exn)                       (* network or parse failure *)
| NonSuccess                              (* a non-success HTTP response *)
| ZeroRecords                             (* the page holds no record *)
| TotalCovered (records : list Raw.Issue) (* records, and the total is reached *)
| MorePages (records : list Raw.Issue).   (* records, and more to fetch *)

Definition verdict (request : Z → Request.t) (page : Z) : Verdict :=
  match fetch env (request page) with
  | NetworkFailure e => Rejects e
  | HttpResponse false _ => NonSuccess
  | HttpResponse true (inl e) => Rejects e
  | HttpResponse true (inr data) =>
      match issues data with
      | None | Some [] => ZeroRecords
      | Some records =>
          match paging data with
          | None => Rejects typeError
          | Some pg =>
              if totalCovered (total pg) (page * pageSize) then TotalCovered records
              else MorePages records
          end
      end
  end.

(** [Paginates request page acc n r]: starting at [page] with [acc]
    accumulated, the fetch asks for [n] consecutive pages and ends with [r]. *)
Inductive Paginates (request : Z → Request.t)
    : Z → list Raw.Issue → nat → Res (list Raw.Issue) → Prop :=
| paginates_rejects page acc e :
    verdict request page = Rejects e →
    Paginates request page acc 1 (Raise e)
| paginates_non_success page acc :
    verdict request page = NonSuccess →
    Paginates request page acc 1 (Val acc)
| paginates_zero_records page acc :
    verdict request page = ZeroRecords →
    Paginates request page acc 1 (Val acc)
| paginates_total_covered page acc records :
    verdict request page = TotalCovered records →
    Paginates request page acc 1 (Val (acc ++ records))
| paginates_more page acc records n r :
    verdict request page = MorePages records →
    Paginates request (page + 1) (acc ++ records) n r →
    Paginates request page acc (S n) r.

(** The [n] page indexes from [page] on. *)
Definition pagesFrom (page : Z) (n : nat) : list Z :=
  (fun k => page + Z.of_nat k) <$> seq 0 n.

(** The world after the requests [rs] went out, in this order. *)
Definition requested (rs : list Request.t) (w : World) : World :=
  withTrace (trace w ++ (HttpRequest <$> rs)) w.

(** [path.join(workspaceRoot, issue.component.replace(`${projectKey}:`, "").replace(/^\/+/, ""))] *)
Definition componentPath (projectKey : option string) (workspaceRoot component : string)
    : string :=
  pathJoin env
    [workspaceRoot;
     Js.stripLeadingSlashes (Js.replace (Js.tpl projectKey +:+ ":") "" component)].

(** [issue.component.replace]: a [TypeError] when there is no component. *)
Definition componentOf (issue : Raw.Issue) : Res string :=
  match Raw.component issue with
  | Some c => Val c
  | None => Raise typeError
  end.

(** The callback of [.filter] in [filterByWorkspace]. *)
Definition inWorkspace (projectKey : option string) (workspaceRoot : string)
    (currentFile : option string) (issue : Raw.Issue) : Res bool :=
  match componentOf issue with
  | Val c =>
      let absPath := componentPath projectKey workspaceRoot c in
      if negb (existsSync env absPath) then Val false
      else if Js.truthy currentFile then Val (String.eqb absPath (Js.tpl currentFile))
      else Val true
  | Raise e => Raise e
  | OutOfFuel => OutOfFuel
  end.

(** The callback of [.map] in [filterByWorkspace]. *)
Definition toSonarIssue (projectKey : option string) (workspaceRoot : string)
    (issue : Raw.Issue) : Res SonarIssue :=
  match componentOf issue with
  | Val c =>
      Val (mkSonarIssue
             (Js.or (Raw.message issue) "Unknown")
             (Js.or (Raw.rule issue) "Unknown")
             (Js.or (Raw.severity issue) "INFO")
             (componentPath projectKey workspaceRoot c)
             (Js.orZ (Raw.textRange issue ≫= Raw.startLine) 1))
  | Raise e => Raise e
  | OutOfFuel => OutOfFuel
  end.

(** [l.filter(f)] and [l.map(f)] for callbacks that may throw: the first
    exception ends the traversal. *)
Fixpoint filterRes {A} (f : A → Res bool) (l : list A) : Res (list A) :=
  match l with
  | [] => Val []
  | x :: l' =>
      match f x with
      | Val b =>
          match filterRes f l' with
          | Val r => Val (if b then x :: r else r)
          | Raise e => Raise e
          | OutOfFuel => OutOfFuel
          end
      | Raise e => Raise e
      | OutOfFuel => OutOfFuel
      end
  end.

Fixpoint mapRes {A B} (f : A → Res B) (l : list A) : Res (list B) :=
  match l with
  | [] => Val []
  | x :: l' =>
      match f x with
      | Val y =>
          match mapRes f l' with
          | Val r => Val (y :: r)
          | Raise e => Raise e
          | OutOfFuel => OutOfFuel
          end
      | Raise e => Raise e
      | OutOfFuel => OutOfFuel
      end
  end.

Definition filterByWorkspace (rawIssues : list Raw.Issue) (projectKey : option string)
    (workspaceRoot : string) (currentFile : option string) : Res (list SonarIssue) :=
  match filterRes (inWorkspace projectKey workspaceRoot currentFile) rawIssues with
  | Val kept => mapRes (toSonarIssue projectKey workspaceRoot) kept
  | Raise e => Raise e
  | OutOfFuel => OutOfFuel
  end.

Definition liftRes {A} (r : Res A) : M A := fun w => (r, w).

(** *** The reconciler's defaults, as the specification words them

    [fieldOr v d x]: [x] is the field [v] of the record, or [d] when the
    field is missing or empty.  [lineOr v x]: [x] is the start line [v], or
    [1] when it is missing or zero. *)
Definition fieldOr (v : option string) (d x : string) : Prop :=
  (v = None ∨ v = Some "" → x = d) ∧ (∀ s, v = Some s → s ≠ "" → x = s).

Definition lineOr (v : option Z) (x : Z) : Prop :=
  (v = None ∨ v = Some 0 → x = 1) ∧ (∀ n, v = Some n → n ≠ 0 → x = n).

(** What reconciling the one record [r] yields, nothing if it throws. *)
Definition reconciled (projectKey : option string) (workspaceRoot : string)
    (currentFile : option string) (r : Raw.Issue) : list SonarIssue :=
  match filterByWorkspace [r] projectKey workspaceRoot currentFile with
  | Val out => out
  | _ => []
  end.

(** The issue built for one message of one lint result. *)
Definition lintIssue (result : LintResult) (msg : LintMessage) : SonarIssue :=
  let sonarSeverity := mapEslintSeverity (lintSeverity msg) in
  mkSonarIssue (lintText msg) (Js.or (ruleId msg) "ESLint") sonarSeverity
               (resultFilePath result) (lintLine msg).

Definition runESLintAnalysis (files : list string) : M (list SonarIssue) :=
  emit (LintFiles files) ;;
  results <- liftE (lintFiles env files) ;;
  ret (flat_map (fun result => lintIssue result <$> messages result) results).

(** The marker [showSeparatedDiagnostics] builds for an issue of a source. *)
Definition diagnosticOf (source : string) (issue : SonarIssue) : Diagnostic.t :=
  let range := (line issue - 1, 0, line issue - 1, 100) in
  let '(vscodeSeverity, prefix) := mapSeverity (severity issue) in
  let message := prefix +:+ ": " +:+ message issue +:+ " (" +:+ rule issue +:+ ")" in
  Diagnostic.mk range message vscodeSeverity source.

(** One turn of a [forEach] of [showSeparatedDiagnostics]; the collection
    is keyed by the file's path. *)
Definition addDiagnostic (source : string) (dc : gmap string (list Diagnostic.t))
    (issue : SonarIssue) : gmap string (list Diagnostic.t) :=
  let diag := diagnosticOf source issue in
  <[filePath issue := default [] (dc !! filePath issue) ++ [diag]]> dc.

Definition publishedDiagnostics (sonarIssues localIssues : list SonarIssue)
    : gmap string (list Diagnostic.t) :=
  foldl (addDiagnostic "ESLint") (foldl (addDiagnostic "SonarQube") ∅ sonarIssues)
        localIssues.

Definition showSeparatedDiagnostics (sonarIssues localIssues : list SonarIssue) : M unit :=
  modify (withDiagnostics (publishedDiagnostics sonarIssues localIssues)).

Definition modeDisplayName (mode : Mode) : string :=
  match mode with
  | OverallAll => "Overall Code (All Files)"
  | OverallFile => "Overall Code (Current File)"
  | NewAll => "New Code (All Files)"
  | NewFile => "New Code (Current File)"
  end.

Definition updateStatusBar (issueCount : nat) : M unit :=
  modify (fun w =>
    match statusBarItem w with
    | Some _ =>
        withStatusBar
          (Some (mkStatusBarItem ("$(bug) Sonar: " +:+ modeDisplayName (currentMode w))
                                 "Click to refresh Sonar & ESLint issues")) w
    | None => w
    end).

Definition refreshAllIssues (fuel : nat) (mode : Mode) : M (list SonarIssue) :=
  tryCatch
    (match workspaceFolders env with
     | None => ret []
     | Some folders =>
         workspaceRoot <- match folders with
                          | root :: _ => ret root
                          | [] => throw typeError
                          end ;;
         let configPath := pathJoin env [workspaceRoot; ".vscode"; "sonar-config.json"] in
         if negb (existsSync env configPath) then
           emit (ShowWarningMessage "Sonar config not found") ;;
           ret []
         else
           config <- liftE (readConfig env configPath) ;;
           let server := Config.server config in
           let token := Config.token config in
           let projectKey := Config.projectKey config in
           let currentFile := activeFile env in
           let isFileMode := Js.endsWith (modeName mode) "file" in
           let isNewMode := Js.startsWith (modeName mode) "new" in
           sonarIssues <-
             (if negb isNewMode then
                apiIssues <- fetchIssues fuel server token projectKey
                               (if isFileMode then currentFile else None) ;;
                liftRes (filterByWorkspace apiIssues projectKey workspaceRoot
                           (if isFileMode then currentFile else None))
              else ret []) ;;
           localIssues <-
             (if isNewMode || String.eqb (modeName mode) "overall-all" then
                let filesToAnalyze :=
                  if isFileMode && Js.truthy currentFile then [Js.tpl currentFile]
                  else findFiles env "**/*.{js,ts,jsx,tsx}" "**/node_modules/**" in
                tryCatch (runESLintAnalysis filesToAnalyze)
                  (fun err =>
                     emit (ShowErrorMessage ("ESLint failed: " +:+ Js.tpl (exnMessage err))) ;;
                     emit (ConsoleError (Js.tpl (exnMessage err))) ;;
                     ret [])
              else ret []) ;;
           selected <- gets selectedSeverities ;;
           let filteredSonarIssues := filterBySeverity selected sonarIssues in
           let filteredLocalIssues := filterBySeverity selected localIssues in
           showSeparatedDiagnostics filteredSonarIssues filteredLocalIssues ;;
           let allFilteredIssues := filteredSonarIssues ++ filteredLocalIssues in
           (* a provider of its own, built and dropped here *)
           let provider := setIssues allFilteredIssues newProvider in
           updateStatusBar (length allFilteredIssues) ;;
           ret allFilteredIssues
     end)
    (fun error =>
       emit (ConsoleError (match error with
                           | JsError m => m
                           | JsThrown => "Something went wrong"
                           end)) ;;
       ret []).

(** What every caller in [activate] does with a refresh:
    [const issues = await refreshAllIssues(currentMode);
     provider.setIssues(issues); updateStatusBar(issues.length);] *)
Definition refreshAndShow (fuel : nat) : M unit :=
  mode <- gets currentMode ;;
  issues <- refreshAllIssues fuel mode ;;
  modify (fun w => withProvider (setIssues issues (provider w)) w) ;;
  updateStatusBar (length issues).

(** The callback of the [sonarExtension.refreshIssues] command. *)
Definition refreshIssuesCommand (fuel : nat) : M unit :=
  modify (withAutoRefresh true) ;;
  refreshAndShow fuel.

(** The listener of [onDidSaveTextDocument]. *)
Definition onDidSaveTextDocument (fuel : nat) : M unit :=
  auto <- gets autoRefreshEnabled ;;
  if auto then refreshAndShow fuel else ret tt.

(** *** The steps of a refresh

    The body of [refreshAllIssues] once the configuration is read, cut at
    its three blocks; [refreshAllIssues_steps] below shows that the function
    is these blocks in sequence. *)

(** The two axes of a mode, as the function computes them. *)
Definition fileBreadth (mode : Mode) : bool := Js.endsWith (modeName mode) "file".
Definition newHorizon (mode : Mode) : bool := Js.startsWith (modeName mode) "new".

(** The file the remote query and the reconciler are restricted to. *)
Definition fileRestriction (mode : Mode) : option string :=
  if fileBreadth mode then activeFile env else None.

Definition remoteStep (fuel : nat) (mode : Mode) (config : Config.t)
    (workspaceRoot : string) : M (list SonarIssue) :=
  if negb (newHorizon mode) then
    apiIssues <- fetchIssues fuel (Config.server config) (Config.token config)
                   (Config.projectKey config) (fileRestriction mode) ;;
    liftRes (filterByWorkspace apiIssues (Config.projectKey config) workspaceRoot
               (fileRestriction mode))
  else ret [].

(** Whether the block of the local analysis is entered. *)
Definition runsLocalAnalysis (mode : Mode) : bool :=
  newHorizon mode || String.eqb (modeName mode) "overall-all".

Definition filesToAnalyze (mode : Mode) : list string :=
  if fileBreadth mode && Js.truthy (activeFile env) then [Js.tpl (activeFile env)]
  else findFiles env "**/*.{js,ts,jsx,tsx}" "**/node_modules/**".

Definition localStep (mode : Mode) : M (list SonarIssue) :=
  if runsLocalAnalysis mode then
    tryCatch (runESLintAnalysis (filesToAnalyze mode))
      (fun err =>
         emit (ShowErrorMessage ("ESLint failed: " +:+ Js.tpl (exnMessage err))) ;;
         emit (ConsoleError (Js.tpl (exnMessage err))) ;;
         ret [])
  else ret [].

Definition publishStep (sonarIssues localIssues : list SonarIssue) : M (list SonarIssue) :=
  selected <- gets selectedSeverities ;;
  let filteredSonarIssues := filterBySeverity selected sonarIssues in
  let filteredLocalIssues := filterBySeverity selected localIssues in
  showSeparatedDiagnostics filteredSonarIssues filteredLocalIssues ;;
  let allFilteredIssues := filteredSonarIssues ++ filteredLocalIssues in
  updateStatusBar (length allFilteredIssues) ;;
  ret allFilteredIssues.

(** The [catch] block of [refreshAllIssues]. *)
Definition refreshFailed (error : Exn) : M (list SonarIssue) :=
  emit (ConsoleError (match error with
                      | JsError m => m
                      | JsThrown => "Something went wrong"
                      end)) ;;
  ret [].

Definition configPathOf (workspaceRoot : string) : string :=
  pathJoin env [workspaceRoot; ".vscode"; "sonar-config.json"].

End Extension.

(** ** The hardened copy of the extension

    The repository carries a second copy of the extension (it follows the
    changelog in [src/CHANGELOG.md]) that wraps each step in a [try] of its
    own.  Its [fetchIssues] and [refreshAllIssues] differ from the ones above
    and are embedded here; every other function is the same. *)

Module Hardened.
Section Extension.

Variable env : Env.

Definition fetchIssues (fuel : nat) (server token projectKey filePath : option string)
    : M (list Raw.Issue) :=
  extraFilter <-
    (if Js.truthy filePath then
       match workspaceFolders env with
       | Some (root :: _) => ret (fileFilter env root projectKey (Js.tpl filePath))
       | _ => throw typeError
       end
     else ret "") ;;
  tryCatch
    (fetchPages env fuel (searchRequest env server token projectKey extraFilter) 1 [])
    (fun error =>
       emit (ShowErrorMessage "Failed to fetch issues") ;;
       ret []).

Definition invalidConfigMessage : string :=
  "Sonar configuration is invalid. Please provide 'server', 'token', and 'projectKey' in .vscode/sonar-config.json file.".

Definition refreshAllIssues (fuel : nat) (mode : Mode) : M (list SonarIssue) :=
  tryCatch
    (match workspaceFolders env with
     | None => ret []
     | Some folders =>
         workspaceRoot <- match folders with
                          | root :: _ => ret root
                          | [] => throw typeError
                          end ;;
         let configPath := pathJoin env [workspaceRoot; ".vscode"; "sonar-config.json"] in
         if negb (existsSync env configPath) then
           emit (ShowWarningMessage "Sonar config not found") ;;
           ret []
         else
           config <- liftE (readConfig env configPath) ;;
           let server := Config.server config in
           let token := Config.token config in
           let projectKey := Config.projectKey config in
           if negb (Js.truthy server) || negb (Js.truthy token)
              || negb (Js.truthy projectKey) then
             emit (ShowErrorMessage invalidConfigMessage) ;;
             ret []
           else
             let currentFile := activeFile env in
             let isFileMode := Js.endsWith (modeName mode) "file" in
             current <- gets currentMode ;;
             remote <-
               (if Js.startsWith (modeName current) "overall-" then
                  tryCatch
                    (apiIssues <- fetchIssues fuel server token projectKey
                                    (if isFileMode then currentFile else None) ;;
                     sonarIssues <- liftRes (filterByWorkspace env apiIssues projectKey
                                               workspaceRoot
                                               (if isFileMode then currentFile else None)) ;;
                     ret (sonarIssues, true))
                    (fun err =>
                       emit (ShowErrorMessage "Failed to fetch SonarQube issues") ;;
                       emit (ConsoleError (Js.tpl (exnMessage err))) ;;
                       ret ([], false))
                else ret ([], false)) ;;
             let sonarIssues := fst remote in
             let fetchSuccess := snd remote in
             localIssues <-
               (if Js.startsWith (modeName current) "new-" then
                  let filesToAnalyze :=
                    if isFileMode && Js.truthy currentFile then [Js.tpl currentFile]
                    else findFiles env "**/*.{js,ts,jsx,tsx}" "**/node_modules/**" in
                  tryCatch (runESLintAnalysis env filesToAnalyze)
                    (fun err =>
                       emit (ShowErrorMessage ("ESLint failed: " +:+ Js.tpl (exnMessage err))) ;;
                       emit (ConsoleError (Js.tpl (exnMessage err))) ;;
                       ret [])
                else ret []) ;;
             selected <- gets selectedSeverities ;;
             let filteredSonarIssues := filterBySeverity selected sonarIssues in
             let filteredLocalIssues := filterBySeverity selected localIssues in
             let allFilteredIssues := filteredSonarIssues ++ filteredLocalIssues in
             if negb fetchSuccess then
               updateStatusBar 0 ;;
               ret []
             else
               (if bool_decide (allFilteredIssues = []) then
                  emit (ShowInformationMessage
                          "No issues found for the selected project and filters.") ;;
                  updateStatusBar 0
                else ret tt) ;;
               showSeparatedDiagnostics filteredSonarIssues filteredLocalIssues ;;
               let provider := setIssues allFilteredIssues newProvider in
               updateStatusBar (length allFilteredIssues) ;;
               ret allFilteredIssues
     end)
    (fun error =>
       let message := match error with
                      | JsError m => m
                      | JsThrown => "Something went wrong"
                      end in
       emit (ShowErrorMessage ("Failed to analyze issues: " +:+ message)) ;;
       emit (ConsoleError message) ;;
       ret []).

End Extension.
End Hardened.

(** The world after the events [evs] happened, in this order; and after a
    refresh published the two lists [sonarIssues] and [localIssues]. *)
Definition emitted (evs : list Event) (w : World) : World :=
  withTrace (trace w ++ evs) w.

Definition published (sonarIssues localIssues : list SonarIssue) (w : World) : World :=
  let w1 := withDiagnostics (publishedDiagnostics sonarIssues localIssues) w in
  match statusBarItem w1 with
  | Some _ =>
      withStatusBar
        (Some (mkStatusBarItem ("$(bug) Sonar: " +:+ modeDisplayName (currentMode w1))
                               "Click to refresh Sonar & ESLint issues")) w1
  | None => w1
  end.

(** The file sets handed to the lint engine, and the requests sent, in a
    trace. *)
Definition lintCalls (t : list Event) : list (list string) :=
  omap (fun ev => match ev with LintFiles files => Some files | _ => None end) t.

Definition httpRequests (t : list Event) : list Request.t :=
  omap (fun ev => match ev with HttpRequest r => Some r | _ => None end) t.

(** The messages shown to the user, in a trace. *)
Definition shownMessages (t : list Event) : list Event :=
  omap (fun ev => match ev with
                  | ShowWarningMessage _ | ShowErrorMessage _
                  | ShowInformationMessage _ => Some ev
                  | _ => None
                  end) t.

(** ** Concrete stores, hosts and servers used below *)

(** A store holding one issue, in [/w/a.ts]. *)
Definition oneFileStore : SonarIssuesProvider :=
  setIssues [mkSonarIssue "Unused variable" "no-unused-vars" "MAJOR" "/w/a.ts" 3]
            newProvider.

(** The world [activate] leaves: nothing published, a status bar item, the
    default mode, and a provider wired to the tree view. *)
Definition worldAfterActivate (selected : list string) : World :=
  {| diagnosticCollection := ∅;
     statusBarItem :=
       Some (mkStatusBarItem "$(bug) Sonar: Overall Code (All Files)"
                             "Click to refresh Sonar & ESLint issues");
     currentMode := OverallAll;
     selectedSeverities := selected;
     autoRefreshEnabled := true;
     provider := setTreeView (TreeView.mk None) newProvider;
     trace := [] |}.

Definition withMode (mode : Mode) (w : World) : World :=
  mkWorld (diagnosticCollection w) (statusBarItem w) mode (selectedSeverities w)
          (autoRefreshEnabled w) (provider w) (trace w).

(** A host with one workspace folder [/w] that holds the configuration file
    and [src/a.ts]; paths are joined with [/].  The parsed configuration, the
    server and the lint engine are left to each scenario. *)
Definition hostWith (config : Exn + Config.t) (server : Request.t → FetchResult)
    (lint : list string → Exn + list LintResult) : Env :=
  {| workspaceFolders := Some ["/w"];
     existsSync := fun path =>
       bool_decide (path ∈ ["/w/.vscode/sonar-config.json"; "/w/src/a.ts"]);
     readConfig := fun _ => config;
     activeFile := Some "/w/src/a.ts";
     settingSelectedSeverities := None;
     fetch := server;
     findFiles := fun _ _ => ["/w/src/a.ts"; "/w/src/c.ts"];
     lintFiles := lint;
     pathJoin := Js.join "/";
     pathRelative := fun root file => Js.drop (S (String.length root)) file |}.

(** A configuration with its three fields, and the one a file holding [{}]
    parses to. *)
Definition fullConfig : Config.t :=
  Config.mk (Some "http://sonar.local") (Some "squ_token") (Some "proj").

Definition emptyConfig : Config.t := Config.mk None None None.

(** The configuration a file that sets the server only parses to: the
    token and the project key are missing. *)
Definition serverOnlyConfig : Config.t := Config.mk (Some "http://sonar.local") None None.

(** Remote records: one for the file that exists, one for a file that does
    not, and one whose [startLine] is [0]; and the issue reconciled from the
    first. *)
Definition recordA : Raw.Issue :=
  Raw.mk (Some "proj:src/a.ts") (Some "Remove this unused import") (Some "ts:S1128")
         (Some "MAJOR") (Some (Raw.mkTextRange (Some 12))).

Definition recordB : Raw.Issue :=
  Raw.mk (Some "proj:src/b.ts") (Some "Refactor this function") None
         (Some "CRITICAL") None.

Definition recordLineZero : Raw.Issue :=
  Raw.mk (Some "proj:src/a.ts") (Some "Remove this unused import") (Some "ts:S1128")
         (Some "MAJOR") (Some (Raw.mkTextRange (Some 0))).

Definition issueA : SonarIssue :=
  mkSonarIssue "Remove this unused import" "ts:S1128" "MAJOR" "/w/src/a.ts" 12.

(** Servers: one that is down, one that answers every page with a
    non-success status, one that serves [recordA] as its only page, and one
    that holds 1200 records in pages of 500, 500 and 200. *)
Definition serverDown : Request.t → FetchResult :=
  fun _ => NetworkFailure (JsError "connect ECONNREFUSED").

Definition serverUnavailable : Request.t → FetchResult :=
  fun _ => HttpResponse false (inl (JsError "Unexpected token < in JSON")).

Definition serverOnePage : Request.t → FetchResult :=
  fun _ => HttpResponse true
             (inr (mkSearchResponse (Some [recordA]) (Some (mkPaging (Some 1))))).

Definition serverPaged : Request.t → FetchResult :=
  fun r =>
    let records :=
      if Z.leb (Request.p r) 2 then replicate 500 recordA
      else if Z.eqb (Request.p r) 3 then replicate 200 recordA
      else [] in
    HttpResponse true (inr (mkSearchResponse (Some records) (Some (mkPaging (Some 1200))))).

(** Lint engines: one that finds nothing, one with an error-level finding
    in each file it is given, and one that cannot run; and the issue the
    second yields in a file. *)
Definition lintClean : list string → Exn + list LintResult :=
  fun _ => inr [].

Definition lintFindings : list string → Exn + list LintResult :=
  fun files =>
    inr ((fun file =>
            mkLintResult file
              [mkLintMessage "'x' is not defined." (Some "no-undef") (EslintNum 2) 7])
         <$> files).

Definition lintBroken : list string → Exn + list LintResult :=
  fun _ => inl (JsError "Failed to load parser").

Definition lintIssueIn (file : string) : SonarIssue :=
  mkSonarIssue "'x' is not defined." "no-undef" "CRITICAL" file 7.

Definition plainHost : Env := hostWith (inr fullConfig) serverDown lintClean.

(** ** The rest of the extension: tree items, commands, listeners *)

Module TreeItem.
(** [vscode.TreeItemCollapsibleState]: [None], [Collapsed], [Expanded]. *)
Inductive CollapsibleState := NotCollapsible | Collapsed | Expanded.

(** [new vscode.ThemeIcon(id, color)], the color by its theme key. *)
Record ThemeIcon := mkIcon { id : string; color : option string }.

(** The [command] of an item: [{ command, title, arguments }]. *)
Record Command := mkCommand {
  commandId : string;
  title : string;
  arguments : list SonarIssue
}.

Record t := mk {
  label : option string;
  resourceUri : option string;
  iconPath : option ThemeIcon;
  tooltip : option string;
  description : option string;
  collapsibleState : CollapsibleState;
  command : option Command
}.
End TreeItem.

(** The icon of an issue node, by the [switch] on its severity. *)
Definition severityIcon (sev : string) : TreeItem.ThemeIcon :=
  if String.eqb sev "BLOCKER" || String.eqb sev "CRITICAL" then
    TreeItem.mkIcon "error" (Some "problemsErrorIcon.foreground")
  else if String.eqb sev "MAJOR" then
    TreeItem.mkIcon "warning" (Some "problemsWarningIcon.foreground")
  else if String.eqb sev "MINOR" || String.eqb sev "INFO" then
    TreeItem.mkIcon "info" (Some "problemsInfoIcon.foreground")
  else TreeItem.mkIcon "info" None.

Section TreeItems.

(** [vscode.workspace.asRelativePath] *)
Variable asRelativePath : string → string.

(** [getTreeItem]: for a file, [this.issuesByFile.get(element)!.length] is
    a [TypeError] when the file has no entry. *)
Definition getTreeItem (p : SonarIssuesProvider) (element : TreeItemElement)
    : Res TreeItem.t :=
  match element with
  | FileNode element =>
      match issuesByFile p !! element with
      | Some here =>
          Val (TreeItem.mk (Some (asRelativePath element)) (Some element)
                 (Some (TreeItem.mkIcon "file" None)) (Some element)
                 (Some (pretty (length here) +:+ " issues"))
                 TreeItem.Expanded None)
      | None => Raise typeError
      end
  | IssueNode element =>
      Val (TreeItem.mk (Some (message element)) None
             (Some (severityIcon (severity element)))
             (Some (rule element +:+ " [" +:+ severity element +:+ "]"))
             (Some ("Line " +:+ pretty (line element)))
             TreeItem.NotCollapsible
             (Some (TreeItem.mkCommand "sonarExtension.openIssue" "Open Issue" [element])))
  end.

End TreeItems.


Definition withSelectedSeverities (selected : list string) (w : World) : World :=
  mkWorld (diagnosticCollection w) (statusBarItem w) (currentMode w) selected
          (autoRefreshEnabled w) (provider w) (trace w).

(** The host after [sonarExtension.selectedSeverities] is written. *)
Definition withSetting (selected : list string) (env : Env) : Env :=
  mkEnv (workspaceFolders env) (existsSync env) (readConfig env) (activeFile env)
        (Some selected) (fetch env) (findFiles env) (lintFiles env) (pathJoin env)
        (pathRelative env).

(** The module's [selectedSeverities] as it is initialised, from the setting
    with its default; and the world [activate] leaves on a host. *)
Definition configuredSeverities (env : Env) : list string :=
  default ["BLOCKER"] (settingSelectedSeverities env).

Definition activated (env : Env) : World :=
  worldAfterActivate (configuredSeverities env).

Definition allSeverities : list string :=
  ["BLOCKER"; "CRITICAL"; "MAJOR"; "MINOR"; "INFO"].

(** The quick pick items of [selectSeverities]: [{ label, picked }]. *)
Definition severityItems (selected : list string) : list (string * bool) :=
  (fun sev => (sev, bool_decide (sev ∈ selected))) <$> allSeverities.

(** The quick pick labels of [sonarExtension.setFilter], and the [switch]
    on the choice. *)
Definition filterChoices : list string :=
  ["All files (Overall Code)"; "Current file (Overall Code)";
   "All files (New Code)"; "Current file (New Code)"].

Definition modeOfChoice (choice : string) : option Mode :=
  if String.eqb choice "All files (Overall Code)" then Some OverallAll
  else if String.eqb choice "Current file (Overall Code)" then Some OverallFile
  else if String.eqb choice "All files (New Code)" then Some NewAll
  else if String.eqb choice "Current file (New Code)" then Some NewFile
  else None.

(** The callback of [sonarExtension.clearIssues]; the collection it tests
    exists once [activate] has run. *)
Definition clearIssuesCommand : M unit :=
  modify (withDiagnostics ∅) ;;
  updateStatusBar 0 ;;
  modify (withAutoRefresh false) ;;
  modify (fun w => withProvider (setIssues [] (provider w)) w) ;;
  emit (ShowInformationMessage "Issues cleared. Click on Refresh issue to show issues").

Section Commands.

Variable env : Env.

(** The callback of [sonarExtension.setFilter], given what the quick pick
    returned. *)
Definition setFilterCommand (fuel : nat) (choice : option string) : M unit :=
  if negb (Js.truthy choice) then ret tt
  else
    modify (fun w => match modeOfChoice (Js.tpl choice) with
                     | Some mode => withMode mode w
                     | None => w
                     end) ;;
    refreshAndShow env fuel.

(** The listener of [onDidChangeActiveTextEditor]; [editor] tells whether
    there is an active editor. *)
Definition onDidChangeActiveTextEditor (fuel : nat) (editor : bool) : M unit :=
  if negb editor then ret tt
  else
    mode <- gets currentMode ;;
    if String.eqb (modeName mode) "overall-file" || String.eqb (modeName mode) "new-file"
    then refreshAndShow env fuel
    else ret tt.

(** [selectSeverities], given the items the quick pick returned and the
    outcome of writing the setting; the refresh command it triggers runs on
    the host with the setting written. *)
Definition selectSeverities (fuel : nat) (picked : option (list (string * bool)))
    (updated : Exn + unit) (w : World) : Env * (Res unit * World) :=
  match picked with
  | Some items =>
      let selected := fst <$> items in
      let w1 := withSelectedSeverities selected w in
      match updated with
      | inl e => (env, (Raise e, w1))
      | inr _ =>
          (withSetting selected env,
           refreshIssuesCommand (withSetting selected env) fuel w1)
      end
  | None => (env, (Val tt, w))
  end.

End Commands.

(** The list a computation returned, empty when it did not return. *)
Definition returned {A} (r : Res (list A)) : list A :=
  match r with
  | Val l => l
  | _ => []
  end.

(** What a refresh leaves alone: the visible provider, the mode, the
    selected severities and the auto-refresh flag; and it only adds to the
    trace. *)
Definition keepsSession (w w' : World) : Prop :=
  provider w' = provider w
  ∧ currentMode w' = currentMode w
  ∧ selectedSeverities w' = selectedSeverities w
  ∧ autoRefreshEnabled w' = autoRefreshEnabled w
  ∧ ∃ evs, trace w' = trace w ++ evs.

(** A server whose pages always carry a record and never report a total. *)
Definition serverNoTotal : Request.t → FetchResult :=
  fun _ => HttpResponse true
             (inr (mkSearchResponse (Some [recordA]) (Some (mkPaging None)))).

(** A record without a component. *)
Definition recordNoComponent : Raw.Issue :=
  Raw.mk None (Some "Refactor this function") None (Some "CRITICAL") None.

(** A host with no active editor, and one whose configuration file does not
    parse. *)
Definition withoutEditor (env : Env) : Env :=
  mkEnv (workspaceFolders env) (existsSync env) (readConfig env) None
        (settingSelectedSeverities env) (fetch env) (findFiles env) (lintFiles env)
        (pathJoin env) (pathRelative env).

Definition hostMalformedConfig : Env :=
  hostWith (inl (JsError "Unexpected end of JSON input")) serverOnePage lintFindings.

(** The requests among [evs] all ask for the severities of the setting. *)
Definition asksSelected (env : Env) (evs : list Event) : Prop :=
  Forall (fun rq => Request.severities rq = Js.join "," (configuredSeverities env))
         (httpRequests evs).

(** The status bar item once [updateStatusBar] has run in [mode]. *)
Definition statusBarIn (mode : Mode) : StatusBarItem :=
  mkStatusBarItem ("$(bug) Sonar: " +:+ modeDisplayName mode)
                  "Click to refresh Sonar & ESLint issues".

(** * Properties *)

(** ** Severity mapper *)

Lemma mapEslintSeverity_cases (v : EslintSeverity) :
  mapEslintSeverity v = "CRITICAL" ∧ (v = EslintNum 2 ∨ v = EslintStr "error")
  ∨ mapEslintSeverity v = "MAJOR" ∧ (v = EslintNum 1 ∨ v = EslintStr "warn")
  ∨ mapEslintSeverity v = "INFO"
    ∧ v ≠ EslintNum 2 ∧ v ≠ EslintStr "error" ∧ v ≠ EslintNum 1 ∧ v ≠ EslintStr "warn".
Proof.
  unfold mapEslintSeverity.
  destruct v as [n | s |]; simpl.
  - destruct (Z.eqb_spec n 2) as [-> | Hn2]; simpl; [left; auto |].
    destruct (Z.eqb_spec n 1) as [-> | Hn1]; simpl; [right; left; auto |].
    right; right. repeat split; congruence.
  - destruct (String.eqb_spec s "error") as [-> | He]; simpl; [left; auto |].
    destruct (String.eqb_spec s "warn") as [-> | Hw]; simpl; [right; left; auto |].
    right; right. repeat split; congruence.
  - right; right. repeat split; congruence.
Qed.

(** C5: [mapEslintSeverity] is a total function that sends the native level
    [2] or ["error"] to CRITICAL, [1] or ["warn"] to MAJOR and every other
    value to INFO; its result is always one of these three labels, so never
    BLOCKER and never MINOR. *)
Theorem mapEslintSeverity_total_stable :
  mapEslintSeverity (EslintNum 2) = severityLabel CRITICAL
  ∧ mapEslintSeverity (EslintStr "error") = severityLabel CRITICAL
  ∧ mapEslintSeverity (EslintNum 1) = severityLabel MAJOR
  ∧ mapEslintSeverity (EslintStr "warn") = severityLabel MAJOR
  ∧ (∀ v, v ≠ EslintNum 2 → v ≠ EslintStr "error" →
          v ≠ EslintNum 1 → v ≠ EslintStr "warn" →
          mapEslintSeverity v = severityLabel INFO)
  ∧ (∀ v, mapEslintSeverity v ∈ severityLabel <$> [CRITICAL; MAJOR; INFO])
  ∧ (∀ v, mapEslintSeverity v ≠ severityLabel BLOCKER
          ∧ mapEslintSeverity v ≠ severityLabel MINOR).
Proof.
  split_and!; try reflexivity.
  - intros v H2 He H1 Hw.
    destruct (mapEslintSeverity_cases v) as [[_ [?|?]] | [[_ [?|?]] | [Hv _]]];
      simpl; congruence.
  - intros v.
    destruct (mapEslintSeverity_cases v) as [[-> _] | [[-> _] | [-> _]]];
      simpl; set_solver.
  - intros v.
    destruct (mapEslintSeverity_cases v) as [[-> _] | [[-> _] | [-> _]]];
      split; discriminate.
Qed.

(** ** Severity filter *)

Lemma filterBySeverity_singleton (s : string) (l : list SonarIssue) (i : SonarIssue) :
  i ∈ filterBySeverity [s] l ↔ i ∈ l ∧ severity i = s.
Proof.
  unfold filterBySeverity. rewrite list_elem_of_filter, list_elem_of_singleton. tauto.
Qed.

Lemma filterBySeverity_nil (selected : list string) : filterBySeverity selected [] = [].
Proof. reflexivity. Qed.

Lemma filterBySeverity_singleton_eq (s : string) (l : list SonarIssue) :
  filterBySeverity [s] l = filter (fun i => severity i = s) l.
Proof.
  unfold filterBySeverity. apply list_filter_iff. intros i.
  apply list_elem_of_singleton.
Qed.

(** C6: with [selectedSeverities = [S]], the filter applied to the remote
    list and to the local list, each on its own, keeps exactly the issues of
    severity [S]: every issue it yields has severity [S], and every issue of
    severity [S] is retained (in the order of the input). *)
Theorem severity_filter_singleton (S : Severity) (remote local : list SonarIssue) :
  (∀ i, i ∈ filterBySeverity [severityLabel S] remote
        ↔ i ∈ remote ∧ severity i = severityLabel S)
  ∧ (∀ i, i ∈ filterBySeverity [severityLabel S] local
          ↔ i ∈ local ∧ severity i = severityLabel S)
  ∧ filterBySeverity [severityLabel S] remote
    = filter (fun i => severity i = severityLabel S) remote
  ∧ filterBySeverity [severityLabel S] local
    = filter (fun i => severity i = severityLabel S) local.
Proof.
  split_and!;
    first [ intros i; apply filterBySeverity_singleton
          | apply filterBySeverity_singleton_eq ].
Qed.

(** ** Grouped issue store *)

Lemma groupIssue_lookup (m : gmap string (list SonarIssue)) (i : SonarIssue) (f : string) :
  groupIssue m i !! f
  = if decide (filePath i = f) then Some (default [] (m !! f) ++ [i]) else m !! f.
Proof.
  unfold groupIssue. case_decide as Hf.
  - subst f. case_bool_decide as Hm.
    + destruct Hm as [l Hl]. rewrite lookup_alter_eq, Hl. reflexivity.
    + rewrite lookup_alter_eq, lookup_insert_eq.
      apply eq_None_not_Some in Hm. rewrite Hm. reflexivity.
  - rewrite lookup_alter_ne by done.
    case_bool_decide; [reflexivity | by rewrite lookup_insert_ne].
Qed.

Lemma foldl_groupIssue_lookup (l : list SonarIssue) (m : gmap string (list SonarIssue))
    (f : string) :
  foldl groupIssue m l !! f
  = match filter (fun i => filePath i = f) l with
    | [] => m !! f
    | here => Some (default [] (m !! f) ++ here)
    end.
Proof.
  revert m. induction l as [| i l IH]; intros m; simpl; [reflexivity |].
  rewrite IH, groupIssue_lookup, filter_cons.
  destruct (decide (filePath i = f)) as [Hf | Hf]; simpl.
  - destruct (filter _ l); simpl; [reflexivity | by rewrite <- app_assoc].
  - reflexivity.
Qed.

(** C7: whatever the provider held, after [setIssues issues] a file has an
    entry exactly when some issue of [issues] lies in it, and the entry is
    that file's issues in input order; so no file absent from the input keeps
    an entry.  An attached view shows the fixed placeholder when [issues] is
    empty and no message otherwise; and one change event fires last, its
    listeners finding the new grouping and message. *)
Theorem setIssues_replaces (issues : list SonarIssue) (p : SonarIssuesProvider) :
  (∀ f, issuesByFile (setIssues issues p) !! f
        = match filter (fun i => filePath i = f) issues with
          | [] => None
          | here => Some here
          end)
  ∧ (∀ f, (∀ i, i ∈ issues → filePath i ≠ f) →
          issuesByFile (setIssues issues p) !! f = None)
  ∧ treeView (setIssues issues p)
    = (fun _ => TreeView.mk (match issues with
                             | [] => Some noIssuesMessage
                             | _ => None
                             end)) <$> treeView p
  ∧ fired (setIssues issues p)
    = fired p ++ [mkChangeEvent (issuesByFile (setIssues issues p))
                                (treeView (setIssues issues p))].
Proof.
  assert (Hlookup : ∀ f, issuesByFile (setIssues issues p) !! f
        = match filter (fun i => filePath i = f) issues with
          | [] => None
          | here => Some here
          end).
  { intros f. simpl. rewrite foldl_groupIssue_lookup, lookup_empty.
    destruct (filter _ issues); reflexivity. }
  split; [exact Hlookup |]. split; [| split].
  - intros f Hf. rewrite Hlookup.
    destruct (filter _ issues) as [| i here] eqn:Hfilter; [reflexivity |].
    assert (Hi : i ∈ filter (fun i => filePath i = f) issues)
      by (rewrite Hfilter; left).
    apply list_elem_of_filter in Hi as [Hfi Hi]. destruct (Hf i Hi Hfi).
  - simpl. destruct (treeView p); simpl; [| reflexivity].
    destruct issues; reflexivity.
  - reflexivity.
Qed.

(** The order of the sort is total and transitive. *)
Lemma Js_unitsLe_total (l1 l2 : list N) :
  Js.unitsLe l1 l2 = true ∨ Js.unitsLe l2 l1 = true.
Proof.
  revert l2. induction l1 as [| a l1 IH]; intros [| b l2]; simpl; auto.
  destruct (N.ltb_spec a b), (N.ltb_spec b a), (N.eqb_spec a b), (N.eqb_spec b a);
    simpl; auto; lia.
Qed.

Lemma Js_unitsLe_trans (l1 l2 l3 : list N) :
  Js.unitsLe l1 l2 = true → Js.unitsLe l2 l3 = true → Js.unitsLe l1 l3 = true.
Proof.
  revert l2 l3. induction l1 as [| a l1 IH]; intros [| b l2] [| c l3]; simpl;
    try done.
  destruct (N.ltb_spec a b), (N.ltb_spec b c), (N.ltb_spec a c),
    (N.eqb_spec a b), (N.eqb_spec b c), (N.eqb_spec a c);
    simpl; try done; try lia.
  apply IH.
Qed.

#[local] Instance Js_le_total : Total Js.le.
Proof.
  intros s t. unfold Js.le.
  destruct (Js_unitsLe_total (Js.codeUnits s) (Js.codeUnits t)) as [-> | ->];
    [left | right]; exact I.
Qed.

#[local] Instance Js_le_trans : Transitive Js.le.
Proof.
  intros s t u Hst Htu. unfold Js.le in *.
  apply Is_true_true in Hst, Htu. apply Is_true_true.
  by eapply Js_unitsLe_trans.
Qed.

(** Where the code units and the bytes disagree: U+10000 (a surrogate
    pair) sorts before U+E000, though its first byte is the larger one. *)
Lemma Js_le_supplementary_first :
  Js.codeUnits (String (ascii_of_N 240) (String (ascii_of_N 144)
                  (String (ascii_of_N 128) (String (ascii_of_N 128) EmptyString))))
  = [55296%N; 56320%N]
  ∧ Js.codeUnits (String (ascii_of_N 238) (String (ascii_of_N 128)
                    (String (ascii_of_N 128) EmptyString)))
    = [57344%N]
  ∧ Js.le (String (ascii_of_N 240) (String (ascii_of_N 144)
             (String (ascii_of_N 128) (String (ascii_of_N 128) EmptyString))))
          (String (ascii_of_N 238) (String (ascii_of_N 128)
             (String (ascii_of_N 128) EmptyString)))
  ∧ Js.le "/w/src/a.ts" "/w/src/b.ts"
  ∧ ¬ Js.le "/w/src/b.ts" "/w/src/a.ts".
Proof. split_and!; vm_compute; by try intros []. Qed.

Lemma sortedKeys_spec (m : gmap string (list SonarIssue)) :
  StronglySorted Js.le (sortedKeys m)
  ∧ NoDup (sortedKeys m)
  ∧ ∀ f, f ∈ sortedKeys m ↔ is_Some (m !! f).
Proof.
  unfold sortedKeys. split_and!.
  - apply (StronglySorted_merge_sort Js.le).
  - rewrite merge_sort_Permutation. apply NoDup_fst_map_to_list.
  - intros f. rewrite merge_sort_Permutation, list_elem_of_fmap. split.
    + intros [[k l] [-> Hkl]]. apply elem_of_map_to_list in Hkl. by exists l.
    + intros [l Hl]. exists (f, l). split; [reflexivity |].
      by apply elem_of_map_to_list.
Qed.

(** C10: [getChildren] is total.  With no parent it yields the file keys
    of the store, each once, in the lexicographic order of their code
    units, which is the order of JavaScript's [sort()]; with a file key it
    yields that file's issues, and the empty sequence, without failing, when
    the key has no entry; with an issue node it yields the empty sequence.
    A file key is a path, so it is not the empty string. *)
Theorem getChildren_total (p : SonarIssuesProvider) :
  (∃ keys, getChildren p None = FileNode <$> keys
           ∧ StronglySorted Js.le keys
           ∧ NoDup keys
           ∧ ∀ f, f ∈ keys ↔ is_Some (issuesByFile p !! f))
  ∧ (∀ f, f ≠ "" → issuesByFile p !! f = None →
          getChildren p (Some (FileNode f)) = [])
  ∧ (∀ f l, f ≠ "" → issuesByFile p !! f = Some l →
            getChildren p (Some (FileNode f)) = IssueNode <$> l)
  ∧ (∀ i, getChildren p (Some (IssueNode i)) = []).
Proof.
  split_and!.
  - exists (sortedKeys (issuesByFile p)). split; [reflexivity |].
    apply sortedKeys_spec.
  - intros f Hf Hnone. unfold getChildren. simpl.
    destruct (String.eqb_spec f "") as [-> | _]; [done |]. simpl.
    by rewrite Hnone.
  - intros f l Hf Hsome. unfold getChildren. simpl.
    destruct (String.eqb_spec f "") as [-> | _]; [done |]. simpl.
    by rewrite Hsome.
  - reflexivity.
Qed.

(** ** Remote fetch client *)

Section Pagination.

Variable env : Env.
Variable request : Z → Request.t.

Lemma requested_nil w : requested [] w = w.
Proof. destruct w. unfold requested, withTrace. simpl. by rewrite app_nil_r. Qed.

Lemma requested_app rs1 rs2 w :
  requested rs2 (requested rs1 w) = requested (rs1 ++ rs2) w.
Proof.
  unfold requested, withTrace. simpl. by rewrite fmap_app, app_assoc.
Qed.

Lemma pagesFrom_S page n : pagesFrom page (S n) = page :: pagesFrom (page + 1) n.
Proof.
  unfold pagesFrom. simpl. rewrite Z.add_0_r. f_equal.
  rewrite <- fmap_S_seq, <- list_fmap_compose. apply list_fmap_ext.
  intros _ k _. simpl. lia.
Qed.

(** One turn of the loop, by the verdict on its page. *)
Lemma fetchPages_step fuel page acc w :
  fetchPages env (S fuel) request page acc w
  = match verdict env request page with
    | Rejects e => (Raise e, requested [request page] w)
    | NonSuccess | ZeroRecords => (Val acc, requested [request page] w)
    | TotalCovered records => (Val (acc ++ records), requested [request page] w)
    | MorePages records =>
        fetchPages env fuel request (page + 1) (acc ++ records)
                   (requested [request page] w)
    end.
Proof.
  unfold verdict. simpl. unfold bind, httpFetch, bind, emit, modify. simpl.
  destruct (fetch env (request page)) as [e | [|] [e | data]]; try reflexivity.
  simpl. destruct (issues data) as [[| r records] |]; try reflexivity.
  destruct (paging data) as [pg |]; [| reflexivity].
  simpl. destruct (totalCovered (total pg) (page * pageSize)); reflexivity.
Qed.

(** A run the rules allow is the run of the loop, given the fuel for it. *)
Lemma fetchPages_complete page acc n r :
  Paginates env request page acc n r →
  ∀ fuel w, (n ≤ fuel)%nat →
    fetchPages env fuel request page acc w
    = (r, requested (request <$> pagesFrom page n) w).
Proof.
  induction 1 as [page acc e Hv | page acc Hv | page acc Hv | page acc records Hv
                 | page acc records n r Hv _ IH];
    intros [| fuel] w Hfuel; try lia;
    rewrite fetchPages_step, Hv, pagesFrom_S; try reflexivity.
  rewrite IH by lia. rewrite requested_app. reflexivity.
Qed.

(** Whatever the loop does within its fuel, the rules allow. *)
Lemma fetchPages_sound fuel : ∀ page acc w r w',
  fetchPages env fuel request page acc w = (r, w') →
  r ≠ OutOfFuel →
  ∃ n, (n ≤ fuel)%nat ∧ Paginates env request page acc n r.
Proof.
  induction fuel as [| fuel IH]; intros page acc w r w' Hrun Hr.
  - simpl in Hrun. unfold outOfFuel in Hrun. congruence.
  - rewrite fetchPages_step in Hrun.
    destruct (verdict env request page) as [e | | | records | records] eqn:Hv.
    + inversion Hrun; subst. exists 1%nat. split; [lia |]. by constructor.
    + inversion Hrun; subst. exists 1%nat. split; [lia |]. by apply paginates_non_success.
    + inversion Hrun; subst. exists 1%nat. split; [lia |]. by apply paginates_zero_records.
    + inversion Hrun; subst. exists 1%nat. split; [lia |]. by apply paginates_total_covered.
    + destruct (IH _ _ _ _ _ Hrun Hr) as (n & Hn & Hp).
      exists (S n). split; [lia |]. by eapply paginates_more.
Qed.

(** Without fuel for the whole run, the loop is cut off. *)
Lemma fetchPages_cut_off page acc n r :
  Paginates env request page acc n r →
  ∀ fuel w, (fuel < n)%nat →
    (fetchPages env fuel request page acc w).1 = OutOfFuel.
Proof.
  induction 1 as [page acc e Hv | page acc Hv | page acc Hv | page acc records Hv
                 | page acc records n r Hv _ IH];
    intros [| fuel] w Hfuel; try lia; try reflexivity.
  rewrite fetchPages_step, Hv. apply IH. lia.
Qed.

(** Pages that each ask for more are fetched one after the other. *)
Lemma paginates_after (before : list (list Raw.Issue)) : ∀ page acc n r,
  (∀ k records, before !! k = Some records →
     verdict env request (page + Z.of_nat k) = MorePages records) →
  Paginates env request (page + Z.of_nat (length before)) (acc ++ concat before) n r →
  Paginates env request page acc (length before + n) r.
Proof.
  induction before as [| records before IH]; intros page acc n r Hmore Hrest.
  - simpl in *. by rewrite Z.add_0_r, app_nil_r in Hrest.
  - simpl. eapply paginates_more.
    + specialize (Hmore 0%nat records eq_refl). by rewrite Z.add_0_r in Hmore.
    + apply IH.
      * intros k records' Hk. specialize (Hmore (S k) records' Hk).
        by replace (page + 1 + Z.of_nat k) with (page + Z.of_nat (S k)) by lia.
      * replace (page + 1 + Z.of_nat (length before))
          with (page + Z.of_nat (length (records :: before))) by (simpl; lia).
        by rewrite <- app_assoc.
Qed.

End Pagination.

Section FetchIssues.

Variable env : Env.

Lemma fetchIssues_unfold root rest server token projectKey filePath fuel w :
  workspaceFolders env = Some (root :: rest) →
  fetchIssues env fuel server token projectKey filePath w
  = fetchPages env fuel
      (searchRequest env server token projectKey (extraFilterOf env root projectKey filePath))
      1 [] (started env root projectKey filePath w).
Proof.
  intros Hroot. unfold fetchIssues, extraFilterOf, started, extraFilterOf.
  unfold bind at 1. rewrite Hroot.
  destruct (Js.truthy filePath); reflexivity.
Qed.

Lemma verdict_more (request : Z → Request.t) (page : Z) records (total : Z) :
  fetch env (request page)
  = HttpResponse true (inr (mkSearchResponse (Some records) (Some (mkPaging (Some total))))) →
  records ≠ [] → (page * pageSize < total)%Z →
  verdict env request page = MorePages records.
Proof.
  intros Hfetch Hrecords Htotal. unfold verdict. rewrite Hfetch. simpl.
  destruct records; [done |].
  destruct (Z.leb_spec total (page * pageSize)); [lia | reflexivity].
Qed.

Lemma verdict_total_covered (request : Z → Request.t) (page : Z) records (total : Z) :
  fetch env (request page)
  = HttpResponse true (inr (mkSearchResponse (Some records) (Some (mkPaging (Some total))))) →
  records ≠ [] → (total ≤ page * pageSize)%Z →
  verdict env request page = TotalCovered records.
Proof.
  intros Hfetch Hrecords Htotal. unfold verdict. rewrite Hfetch. simpl.
  destruct records; [done |].
  destruct (Z.leb_spec total (page * pageSize)); [reflexivity | lia].
Qed.

(** C4: the fetch asks for pages 1, 2, 3, ... with [ps = 500].  After pages
    that each came back with records and a total not yet covered, it stops at
    the first page that comes back with a non-success status or with zero
    records, returning the records accumulated so far and raising nothing,
    or with the reported total covered, returning them with that page's
    records; it makes no other run within its fuel.  When every page
    reports [paging.total = 1200] and the pages hold 500, 500 and 200
    records, exactly the pages 1, 2 and 3 are requested. *)
Theorem fetchIssues_pagination root rest server token projectKey filePath fuel w :
  workspaceFolders env = Some (root :: rest) →
  let request :=
    searchRequest env server token projectKey (extraFilterOf env root projectKey filePath) in
  let w0 := started env root projectKey filePath w in
  (∀ page, Request.p (request page) = page ∧ Request.ps (request page) = 500)
  ∧ (∀ before : list (list Raw.Issue),
       (∀ k records, before !! k = Some records →
          verdict env request (1 + Z.of_nat k) = MorePages records) →
       (S (length before) ≤ fuel)%nat →
       (verdict env request (1 + Z.of_nat (length before)) = NonSuccess
        ∨ verdict env request (1 + Z.of_nat (length before)) = ZeroRecords →
        fetchIssues env fuel server token projectKey filePath w
        = (Val (concat before),
           requested (request <$> pagesFrom 1 (S (length before))) w0))
       ∧ (∀ records,
            verdict env request (1 + Z.of_nat (length before)) = TotalCovered records →
            fetchIssues env fuel server token projectKey filePath w
            = (Val (concat before ++ records),
               requested (request <$> pagesFrom 1 (S (length before))) w0)))
  ∧ (∀ n r, Paginates env request 1 [] n r → (n ≤ fuel)%nat →
       fetchIssues env fuel server token projectKey filePath w
       = (r, requested (request <$> pagesFrom 1 n) w0))
  ∧ (∀ r w', fetchIssues env fuel server token projectKey filePath w = (r, w') →
       r ≠ OutOfFuel →
       ∃ n, (n ≤ fuel)%nat ∧ Paginates env request 1 [] n r)
  ∧ (∀ records1 records2 records3,
       fetch env (request 1)
       = HttpResponse true (inr (mkSearchResponse (Some records1)
                                                  (Some (mkPaging (Some 1200))))) →
       fetch env (request 2)
       = HttpResponse true (inr (mkSearchResponse (Some records2)
                                                  (Some (mkPaging (Some 1200))))) →
       fetch env (request 3)
       = HttpResponse true (inr (mkSearchResponse (Some records3)
                                                  (Some (mkPaging (Some 1200))))) →
       length records1 = 500%nat → length records2 = 500%nat →
       length records3 = 200%nat →
       (3 ≤ fuel)%nat →
       fetchIssues env fuel server token projectKey filePath w
       = (Val (records1 ++ records2 ++ records3),
          requested [request 1; request 2; request 3] w0)).
Proof.
  intros Hroot request w0.
  assert (Hcomplete : ∀ n r, Paginates env request 1 [] n r → (n ≤ fuel)%nat →
       fetchIssues env fuel server token projectKey filePath w
       = (r, requested (request <$> pagesFrom 1 n) w0)).
  { intros n r Hp Hn. rewrite (fetchIssues_unfold root rest) by done.
    by apply fetchPages_complete. }
  assert (Hstop : ∀ (before : list (list Raw.Issue)) r,
       (∀ k records, before !! k = Some records →
          verdict env request (1 + Z.of_nat k) = MorePages records) →
       (S (length before) ≤ fuel)%nat →
       Paginates env request (1 + Z.of_nat (length before)) ([] ++ concat before) 1 r →
       fetchIssues env fuel server token projectKey filePath w
       = (r, requested (request <$> pagesFrom 1 (S (length before))) w0)).
  { intros before r Hmore Hfuel Hlast.
    replace (S (length before)) with (length before + 1)%nat in * by lia.
    apply Hcomplete; [| done]. by apply paginates_after. }
  split_and!.
  - intros page. split; reflexivity.
  - intros before Hmore Hfuel. split.
    + intros [Hv | Hv]; apply Hstop; try done.
      * by apply paginates_non_success.
      * by apply paginates_zero_records.
    + intros records Hv. apply Hstop; try done.
      by apply paginates_total_covered.
  - exact Hcomplete.
  - intros r w' Hrun Hr. rewrite (fetchIssues_unfold root rest) in Hrun by done.
    by eapply fetchPages_sound.
  - intros records1 records2 records3 H1 H2 H3 Hl1 Hl2 Hl3 Hfuel.
    assert (records1 ≠ [] ∧ records2 ≠ [] ∧ records3 ≠ []) as (Hn1 & Hn2 & Hn3).
    { split_and!; intros ->; simpl in *; lia. }
    assert (Hp : Paginates env request 1 [] 3 (Val (records1 ++ records2 ++ records3))).
    { replace (records1 ++ records2 ++ records3)
        with ((([] ++ records1) ++ records2) ++ records3)
        by (simpl; by rewrite app_assoc).
      eapply paginates_more;
        [apply (verdict_more _ 1 _ 1200); [exact H1 | done | unfold pageSize; lia] |].
      eapply paginates_more;
        [apply (verdict_more _ (1 + 1) _ 1200); [exact H2 | done | unfold pageSize; lia] |].
      apply paginates_total_covered.
      apply (verdict_total_covered _ (1 + 1 + 1) _ 1200);
        [exact H3 | done | unfold pageSize; lia]. }
    rewrite (Hcomplete 3%nat _ Hp Hfuel). reflexivity.
Qed.

End FetchIssues.

(** ** Workspace reconciler *)

Lemma Js_or_spec (v : option string) (d : string) : fieldOr v d (Js.or v d).
Proof.
  split.
  - intros [-> | ->]; reflexivity.
  - intros s -> Hs. simpl. by destruct (String.eqb_spec s "").
Qed.

Lemma Js_orZ_spec (v : option Z) : lineOr v (Js.orZ v 1).
Proof.
  split.
  - intros [-> | ->]; reflexivity.
  - intros n -> Hn. simpl. by destruct (Z.eqb_spec n 0).
Qed.

Lemma prefix_app (pat s : string) : String.prefix pat (pat +:+ s) = true.
Proof.
  induction pat as [| c pat IH]; simpl.
  - by destruct s.
  - destruct (Ascii.ascii_dec c c); [apply IH | done].
Qed.

Lemma Js_drop_app (pat s : string) : Js.drop (String.length pat) (pat +:+ s) = s.
Proof. induction pat as [| c pat IH]; [reflexivity | apply IH]. Qed.

(** A pattern at the head of a string is the occurrence [replace] removes. *)
Lemma Js_replace_prefix (pat rest : string) :
  Js.replace pat "" (pat +:+ rest) = rest.
Proof.
  destruct pat as [| c pat].
  - destruct rest; reflexivity.
  - change (Js.replace (String c pat) "" (String c pat +:+ rest))
      with (if String.prefix (String c pat) (String c pat +:+ rest)
            then "" +:+ Js.drop (String.length (String c pat)) (String c pat +:+ rest)
            else String c (Js.replace (String c pat) "" (pat +:+ rest))).
    rewrite prefix_app, Js_drop_app. reflexivity.
Qed.

Section Reconciler.

Variable env : Env.
Variables (projectKey : option string) (workspaceRoot : string).
Variable currentFile : option string.

(** With a component, neither callback throws. *)
Lemma inWorkspace_component (r : Raw.Issue) (c : string) :
  Raw.component r = Some c →
  inWorkspace env projectKey workspaceRoot currentFile r
  = Val (existsSync env (componentPath env projectKey workspaceRoot c)
         && (if Js.truthy currentFile
             then String.eqb (componentPath env projectKey workspaceRoot c)
                             (Js.tpl currentFile)
             else true)).
Proof.
  intros Hc. unfold inWorkspace, componentOf. rewrite Hc.
  destruct (existsSync env _); simpl; [| reflexivity].
  destruct (Js.truthy currentFile); reflexivity.
Qed.

Lemma toSonarIssue_component (r : Raw.Issue) (c : string) :
  Raw.component r = Some c →
  toSonarIssue env projectKey workspaceRoot r
  = Val (mkSonarIssue (Js.or (Raw.message r) "Unknown") (Js.or (Raw.rule r) "Unknown")
                      (Js.or (Raw.severity r) "INFO")
                      (componentPath env projectKey workspaceRoot c)
                      (Js.orZ (Raw.textRange r ≫= Raw.startLine) 1)).
Proof. intros Hc. unfold toSonarIssue, componentOf. by rewrite Hc. Qed.

Lemma reconciled_component (r : Raw.Issue) (c : string) :
  Raw.component r = Some c →
  reconciled env projectKey workspaceRoot currentFile r
  = if existsSync env (componentPath env projectKey workspaceRoot c)
       && (if Js.truthy currentFile
           then String.eqb (componentPath env projectKey workspaceRoot c)
                           (Js.tpl currentFile)
           else true)
    then [mkSonarIssue (Js.or (Raw.message r) "Unknown") (Js.or (Raw.rule r) "Unknown")
                       (Js.or (Raw.severity r) "INFO")
                       (componentPath env projectKey workspaceRoot c)
                       (Js.orZ (Raw.textRange r ≫= Raw.startLine) 1)]
    else [].
Proof.
  intros Hc. unfold reconciled, filterByWorkspace. simpl.
  rewrite (inWorkspace_component r c Hc).
  destruct (_ && _); simpl; [| reflexivity].
  by rewrite (toSonarIssue_component r c Hc).
Qed.

(** Each record is reconciled on its own, in the order of the input. *)
Lemma filterByWorkspace_cons (r : Raw.Issue) (c : string) (l : list Raw.Issue) :
  Raw.component r = Some c →
  filterByWorkspace env (r :: l) projectKey workspaceRoot currentFile
  = match filterByWorkspace env l projectKey workspaceRoot currentFile with
    | Val out => Val (reconciled env projectKey workspaceRoot currentFile r ++ out)
    | Raise e => Raise e
    | OutOfFuel => OutOfFuel
    end.
Proof.
  intros Hc. rewrite (reconciled_component r c Hc).
  unfold filterByWorkspace. simpl.
  rewrite (inWorkspace_component r c Hc).
  destruct (filterRes _ l) as [kept | e |]; try reflexivity.
  destruct (_ && _); simpl; [| by destruct (mapRes _ kept)].
  rewrite (toSonarIssue_component r c Hc).
  by destruct (mapRes _ kept).
Qed.

Lemma filterByWorkspace_total (l : list Raw.Issue) :
  Forall (fun r => is_Some (Raw.component r)) l →
  filterByWorkspace env l projectKey workspaceRoot currentFile
  = Val (l ≫= reconciled env projectKey workspaceRoot currentFile).
Proof.
  induction 1 as [| r l [c Hc] _ IH]; [reflexivity |].
  rewrite (filterByWorkspace_cons r c l Hc), IH. reflexivity.
Qed.

Lemma reconciled_missing (r : Raw.Issue) (c : string) :
  Raw.component r = Some c →
  existsSync env (componentPath env projectKey workspaceRoot c) = false →
  reconciled env projectKey workspaceRoot currentFile r = [].
Proof. intros Hc Hexists. by rewrite (reconciled_component r c Hc), Hexists. Qed.

Lemma reconciled_other_file (r : Raw.Issue) (c : string) :
  Raw.component r = Some c →
  Js.truthy currentFile = true →
  currentFile ≠ Some (componentPath env projectKey workspaceRoot c) →
  reconciled env projectKey workspaceRoot currentFile r = [].
Proof.
  intros Hc Htruthy Hother. rewrite (reconciled_component r c Hc), Htruthy.
  destruct currentFile as [cf |]; [| discriminate]. simpl.
  destruct (String.eqb_spec (componentPath env projectKey workspaceRoot c) cf);
    [congruence | by rewrite andb_false_r].
Qed.

Lemma reconciled_kept (r : Raw.Issue) (c : string) :
  Raw.component r = Some c →
  existsSync env (componentPath env projectKey workspaceRoot c) = true →
  (Js.truthy currentFile = true →
   currentFile = Some (componentPath env projectKey workspaceRoot c)) →
  reconciled env projectKey workspaceRoot currentFile r
  = [mkSonarIssue (Js.or (Raw.message r) "Unknown") (Js.or (Raw.rule r) "Unknown")
                  (Js.or (Raw.severity r) "INFO")
                  (componentPath env projectKey workspaceRoot c)
                  (Js.orZ (Raw.textRange r ≫= Raw.startLine) 1)].
Proof.
  intros Hc Hexists Hsame. rewrite (reconciled_component r c Hc), Hexists. simpl.
  destruct (Js.truthy currentFile); [| reflexivity].
  rewrite (Hsame eq_refl). simpl. by rewrite String.eqb_refl.
Qed.

End Reconciler.

(** C3, as stated, fails on a record whose [startLine] is [0]: its path
    exists, it is retained, and its line is [1], not [textRange.startLine]. *)
Lemma filterByWorkspace_line_zero :
  existsSync plainHost (componentPath plainHost (Some "proj") "/w" "proj:src/a.ts") = true
  ∧ Raw.component recordLineZero = Some "proj:src/a.ts"
  ∧ Raw.textRange recordLineZero ≫= Raw.startLine = Some 0
  ∧ filterByWorkspace plainHost [recordLineZero] (Some "proj") "/w" None
    = Val [mkSonarIssue "Remove this unused import" "ts:S1128" "MAJOR" "/w/src/a.ts" 1].
Proof. split_and!; vm_compute; reflexivity. Qed.

(** C3 (amended): when every record carries a component, reconciliation
    handles each record on its own and keeps the order.  A record is dropped
    when its path (the component with the first [projectKey:] and the leading
    slashes removed, joined to the workspace root; for a component that
    starts with [projectKey:] this strips the prefix) does not exist, or
    differs from a supplied current file.  Every other record is retained as
    one issue whose [filePath] is that path, whose [line] is
    [textRange.startLine], or [1] when that is missing or zero, and whose
    message, rule and severity are the record's, or ["Unknown"], ["Unknown"]
    and ["INFO"] when missing or empty. *)
Theorem filterByWorkspace_reconciles (env : Env) (projectKey : option string)
    (workspaceRoot : string) (currentFile : option string) (rawIssues : list Raw.Issue) :
  Forall (fun r => is_Some (Raw.component r)) rawIssues →
  filterByWorkspace env rawIssues projectKey workspaceRoot currentFile
  = Val (rawIssues ≫= reconciled env projectKey workspaceRoot currentFile)
  ∧ (∀ r c, r ∈ rawIssues → Raw.component r = Some c →
       let absPath := componentPath env projectKey workspaceRoot c in
       (existsSync env absPath = false →
        reconciled env projectKey workspaceRoot currentFile r = [])
       ∧ (Js.truthy currentFile = true → currentFile ≠ Some absPath →
          reconciled env projectKey workspaceRoot currentFile r = [])
       ∧ (existsSync env absPath = true →
          (Js.truthy currentFile = true → currentFile = Some absPath) →
          ∃ i, reconciled env projectKey workspaceRoot currentFile r = [i]
               ∧ filePath i = absPath
               ∧ lineOr (Raw.textRange r ≫= Raw.startLine) (line i)
               ∧ fieldOr (Raw.message r) "Unknown" (message i)
               ∧ fieldOr (Raw.rule r) "Unknown" (rule i)
               ∧ fieldOr (Raw.severity r) "INFO" (severity i)))
  ∧ (∀ rest, componentPath env projectKey workspaceRoot
               ((Js.tpl projectKey +:+ ":") +:+ rest)
             = pathJoin env [workspaceRoot; Js.stripLeadingSlashes rest]).
Proof.
  intros Hcomponents. split_and!.
  - by apply filterByWorkspace_total.
  - intros r c _ Hc absPath. split_and!.
    + by apply reconciled_missing.
    + by apply reconciled_other_file.
    + intros Hexists Hsame. eexists. split; [by apply reconciled_kept |].
      simpl. split_and!;
        [reflexivity | apply Js_orZ_spec | apply Js_or_spec ..].
  - intros rest. unfold componentPath. by rewrite Js_replace_prefix.
Qed.

(** Of the records for [src/a.ts] and [src/b.ts], the second file missing
    from the workspace, only the first's issue remains. *)
Lemma filterByWorkspace_reconciles_witness :
  Forall (fun r => is_Some (Raw.component r)) [recordA; recordB]
  ∧ filterByWorkspace plainHost [recordA; recordB] (Some "proj") "/w" None
    = Val [mkSonarIssue "Remove this unused import" "ts:S1128" "MAJOR" "/w/src/a.ts" 12].
Proof.
  assert (H : Forall (fun r => is_Some (Raw.component r)) [recordA; recordB])
    by (repeat constructor; eexists; reflexivity).
  split; [exact H |].
  exact (eq_trans
           (proj1 (filterByWorkspace_reconciles plainHost (Some "proj") "/w" None
                     [recordA; recordB] H))
           eq_refl).
Defined.

(** ** Refresh orchestrator *)

Lemma emitted_app (evs1 evs2 : list Event) (w : World) :
  emitted evs2 (emitted evs1 w) = emitted (evs1 ++ evs2) w.
Proof. unfold emitted, withTrace. simpl. by rewrite app_assoc. Qed.

Lemma emitted_nil (w : World) : emitted [] w = w.
Proof. destruct w. unfold emitted, withTrace. simpl. by rewrite app_nil_r. Qed.

Lemma lintCalls_app (t1 t2 : list Event) : lintCalls (t1 ++ t2) = lintCalls t1 ++ lintCalls t2.
Proof. apply omap_app. Qed.

Lemma lintCalls_requests (rs : list Request.t) : lintCalls (HttpRequest <$> rs) = [].
Proof. induction rs as [| r rs IH]; [reflexivity | exact IH]. Qed.

Lemma addDiagnostic_lookup source (dc : gmap string (list Diagnostic.t)) (i : SonarIssue)
    (f : string) :
  addDiagnostic source dc i !! f
  = if decide (filePath i = f) then Some (default [] (dc !! f) ++ [diagnosticOf source i])
    else dc !! f.
Proof.
  unfold addDiagnostic. case_decide as Hf.
  - subst f. by rewrite lookup_insert_eq.
  - by rewrite lookup_insert_ne.
Qed.

Lemma foldl_addDiagnostic_lookup source (l : list SonarIssue)
    (dc : gmap string (list Diagnostic.t)) (f : string) :
  foldl (addDiagnostic source) dc l !! f
  = match filter (fun i => filePath i = f) l with
    | [] => dc !! f
    | here => Some (default [] (dc !! f) ++ (diagnosticOf source <$> here))
    end.
Proof.
  revert dc. induction l as [| i l IH]; intros dc; simpl; [reflexivity |].
  rewrite IH, addDiagnostic_lookup, filter_cons.
  destruct (decide (filePath i = f)) as [Hf | Hf]; simpl.
  - destruct (filter _ l); simpl; [reflexivity | by rewrite <- app_assoc].
  - reflexivity.
Qed.

(** The markers a file gets when only remote issues are published. *)
Lemma publishedDiagnostics_remote_only (sonarIssues : list SonarIssue) (f : string) :
  publishedDiagnostics sonarIssues [] !! f
  = match filter (fun i => filePath i = f) sonarIssues with
    | [] => None
    | here => Some (diagnosticOf "SonarQube" <$> here)
    end.
Proof.
  unfold publishedDiagnostics. simpl.
  rewrite foldl_addDiagnostic_lookup, lookup_empty.
  by destruct (filter _ sonarIssues).
Qed.

(** Publishing touches the diagnostics and the status bar only; updating
    the status bar touches the status bar only. *)
Lemma published_frame (sonarIssues localIssues : list SonarIssue) (w : World) :
  diagnosticCollection (published sonarIssues localIssues w)
  = publishedDiagnostics sonarIssues localIssues
  ∧ trace (published sonarIssues localIssues w) = trace w
  ∧ provider (published sonarIssues localIssues w) = provider w
  ∧ selectedSeverities (published sonarIssues localIssues w) = selectedSeverities w
  ∧ currentMode (published sonarIssues localIssues w) = currentMode w.
Proof. unfold published. simpl. by destruct (statusBarItem w). Qed.

Lemma updateStatusBar_frame (issueCount : nat) (w : World) :
  ∃ w', updateStatusBar issueCount w = (Val tt, w')
        ∧ diagnosticCollection w' = diagnosticCollection w
        ∧ trace w' = trace w
        ∧ provider w' = provider w.
Proof.
  unfold updateStatusBar, modify. eexists. split; [reflexivity |].
  by destruct (statusBarItem w).
Qed.

Section Refresh.

Variable env : Env.

(** The remote block only logs and sends requests. *)
Lemma fetchPages_world request fuel : ∀ page acc w,
  ∃ rs, (fetchPages env fuel request page acc w).2 = requested rs w.
Proof.
  induction fuel as [| fuel IH]; intros page acc w.
  - exists []. simpl. by rewrite requested_nil.
  - rewrite fetchPages_step.
    destruct (verdict env request page); try by exists [request page].
    destruct (IH (page + 1) (acc ++ records) (requested [request page] w)) as [rs Hrs].
    exists ([request page] ++ rs). by rewrite Hrs, requested_app.
Qed.

Lemma fetchIssues_world fuel server token projectKey filePath w :
  ∃ evs, (fetchIssues env fuel server token projectKey filePath w).2 = emitted evs w
         ∧ lintCalls evs = [].
Proof.
  assert (Hloop : ∀ extraFilter,
    ∃ evs, (bind (emit (ConsoleLog ("extraFilter " +:+ extraFilter)))
              (fun _ => fetchPages env fuel
                          (searchRequest env server token projectKey extraFilter) 1 [])
              w).2 = emitted evs w
           ∧ lintCalls evs = []).
  { intros extraFilter. unfold bind, emit, modify.
    match goal with
    | |- context [fetchPages env fuel ?rq ?pg ?acc ?w0] =>
        destruct (fetchPages_world rq fuel pg acc w0) as [rs Hrs]
    end.
    eexists (_ :: (HttpRequest <$> rs)). rewrite Hrs. split.
    - unfold requested, emitted, withTrace. simpl. by rewrite <- app_assoc.
    - simpl. apply lintCalls_requests. }
  unfold fetchIssues. unfold bind at 1.
  destruct (Js.truthy filePath); [| apply Hloop].
  destruct (workspaceFolders env) as [[| root rest] |];
    first [ apply Hloop | exists []; by rewrite emitted_nil ].
Qed.

Lemma remoteStep_world fuel mode config root w :
  ∃ evs, (remoteStep env fuel mode config root w).2 = emitted evs w
         ∧ lintCalls evs = [].
Proof.
  unfold remoteStep. destruct (negb (newHorizon mode)).
  - unfold bind.
    destruct (fetchIssues_world fuel (Config.server config) (Config.token config)
                (Config.projectKey config) (fileRestriction env mode) w)
      as (evs & Hevs & Hlint).
    exists evs. split; [| exact Hlint].
    destruct (fetchIssues env fuel _ _ _ _ w) as [[api | e |] w1]; simpl in *;
      [| done | done].
    unfold liftRes. simpl. exact Hevs.
  - exists []. by rewrite emitted_nil.
Qed.

(** [refreshAllIssues] is its blocks in sequence, under its [try]. *)
Lemma refreshAllIssues_steps (fuel : nat) (mode : Mode) :
  refreshAllIssues env fuel mode
  = tryCatch
      (match workspaceFolders env with
       | None => ret []
       | Some folders =>
           workspaceRoot <- match folders with
                            | root :: _ => ret root
                            | [] => throw typeError
                            end ;;
           if negb (existsSync env (configPathOf env workspaceRoot)) then
             emit (ShowWarningMessage "Sonar config not found") ;;
             ret []
           else
             config <- liftE (readConfig env (configPathOf env workspaceRoot)) ;;
             sonarIssues <- remoteStep env fuel mode config workspaceRoot ;;
             localIssues <- localStep env mode ;;
             publishStep sonarIssues localIssues
       end)
      refreshFailed.
Proof. reflexivity. Qed.

Lemma refreshAllIssues_configured fuel mode root rest config w :
  workspaceFolders env = Some (root :: rest) →
  existsSync env (configPathOf env root) = true →
  readConfig env (configPathOf env root) = inr config →
  refreshAllIssues env fuel mode w
  = tryCatch (sonarIssues <- remoteStep env fuel mode config root ;;
              localIssues <- localStep env mode ;;
              publishStep sonarIssues localIssues)
             refreshFailed w.
Proof.
  intros Hws Hcfg Hread. rewrite refreshAllIssues_steps.
  unfold tryCatch. rewrite Hws. unfold bind at 1. unfold ret at 1.
  rewrite Hcfg. simpl. unfold bind at 1. rewrite Hread. reflexivity.
Qed.

(** The local block never throws: a failing engine is reported and
    contributes no issue. *)
Lemma localStep_run mode w :
  localStep env mode w
  = if runsLocalAnalysis mode then
      match lintFiles env (filesToAnalyze env mode) with
      | inr results =>
          (Val (flat_map (fun result => lintIssue result <$> messages result) results),
           emitted [LintFiles (filesToAnalyze env mode)] w)
      | inl err =>
          (Val [],
           emitted [LintFiles (filesToAnalyze env mode);
                    ShowErrorMessage ("ESLint failed: " +:+ Js.tpl (exnMessage err));
                    ConsoleError (Js.tpl (exnMessage err))] w)
      end
    else (Val [], w).
Proof.
  unfold localStep. destruct (runsLocalAnalysis mode); [| reflexivity].
  unfold tryCatch, runESLintAnalysis, bind, emit, modify. simpl.
  destruct (lintFiles env (filesToAnalyze env mode)) as [err | results]; simpl.
  - unfold emitted, withTrace. simpl. by rewrite <- !app_assoc.
  - reflexivity.
Qed.

Lemma publishStep_run sonarIssues localIssues w :
  publishStep sonarIssues localIssues w
  = (Val (filterBySeverity (selectedSeverities w) sonarIssues
          ++ filterBySeverity (selectedSeverities w) localIssues),
     published (filterBySeverity (selectedSeverities w) sonarIssues)
               (filterBySeverity (selectedSeverities w) localIssues) w).
Proof. reflexivity. Qed.

End Refresh.

Section RefreshClaims.

Variable env : Env.
Variables (fuel : nat) (root : string) (rest : list string) (config : Config.t).

Hypothesis workspace_open : workspaceFolders env = Some (root :: rest).
Hypothesis config_present : existsSync env (configPathOf env root) = true.
Hypothesis config_parsed : readConfig env (configPathOf env root) = inr config.

Lemma refreshAllIssues_remote_raises mode w e w1 :
  remoteStep env fuel mode config root w = (Raise e, w1) →
  refreshAllIssues env fuel mode w = refreshFailed e w1.
Proof using workspace_open config_present config_parsed.
  intros Hremote.
  rewrite (refreshAllIssues_configured env fuel mode root rest config) by done.
  unfold tryCatch, bind. by rewrite Hremote.
Qed.

Lemma refreshAllIssues_remote_returns mode w sonarIssues w1 :
  remoteStep env fuel mode config root w = (Val sonarIssues, w1) →
  refreshAllIssues env fuel mode w
  = match localStep env mode w1 with
    | (Val localIssues, w2) => publishStep sonarIssues localIssues w2
    | other => other
    end.
Proof using workspace_open config_present config_parsed.
  intros Hremote.
  rewrite (refreshAllIssues_configured env fuel mode root rest config) by done.
  unfold tryCatch, bind. rewrite Hremote, localStep_run.
  destruct (runsLocalAnalysis mode); [| reflexivity].
  destruct (lintFiles env (filesToAnalyze env mode)); reflexivity.
Qed.

(** When both blocks return, the refresh returns the filtered remote issues
    followed by the filtered local ones. *)
Lemma refreshAllIssues_both_return mode w sonarIssues w1 results :
  remoteStep env fuel mode config root w = (Val sonarIssues, w1) →
  runsLocalAnalysis mode = true →
  lintFiles env (filesToAnalyze env mode) = inr results →
  (refreshAllIssues env fuel mode w).1
  = Val (filterBySeverity (selectedSeverities w) sonarIssues
         ++ filterBySeverity (selectedSeverities w)
              (flat_map (fun result => lintIssue result <$> messages result) results)).
Proof using workspace_open config_present config_parsed.
  intros Hremote Hruns Hlint.
  rewrite (refreshAllIssues_remote_returns mode w sonarIssues w1 Hremote).
  destruct (remoteStep_world env fuel mode config root w) as (evs & Hw1 & _).
  rewrite Hremote in Hw1. simpl in Hw1. subst w1.
  by rewrite localStep_run, Hruns, Hlint, publishStep_run.
Qed.

(** C1: in a mode of horizon "overall", when the remote fetch fails
    (the call throws: the network request was rejected or the response
    could not be read), the refresh returns the empty list, whatever the
    lint engine would report; nothing is published, and the failure is
    logged.  A fetch that is rejected at its [n]-th page, after [n - 1]
    pages that asked for more, is such a failure. *)
Theorem remote_failure_voids_cycle (mode : Mode) (w : World) :
  newHorizon mode = false →
  (∀ e w1,
     fetchIssues env fuel (Config.server config) (Config.token config)
                 (Config.projectKey config) (fileRestriction env mode) w
     = (Raise e, w1) →
     refreshAllIssues env fuel mode w
     = (Val [], emitted [ConsoleError (match e with
                                       | JsError m => m
                                       | JsThrown => "Something went wrong"
                                       end)] w1))
  ∧ (∀ n e,
       Paginates env
         (searchRequest env (Config.server config) (Config.token config)
            (Config.projectKey config)
            (extraFilterOf env root (Config.projectKey config) (fileRestriction env mode)))
         1 [] n (Raise e) →
       (n ≤ fuel)%nat →
       (refreshAllIssues env fuel mode w).1 = Val []
       ∧ lintCalls (trace (refreshAllIssues env fuel mode w).2) = lintCalls (trace w)
       ∧ diagnosticCollection (refreshAllIssues env fuel mode w).2
         = diagnosticCollection w).
Proof using workspace_open config_present config_parsed.
  intros Hoverall.
  assert (Hfails : ∀ e w1,
     fetchIssues env fuel (Config.server config) (Config.token config)
                 (Config.projectKey config) (fileRestriction env mode) w
     = (Raise e, w1) →
     refreshAllIssues env fuel mode w = refreshFailed e w1).
  { intros e w1 Hfetch. apply refreshAllIssues_remote_raises.
    unfold remoteStep. rewrite Hoverall. simpl. unfold bind. by rewrite Hfetch. }
  split.
  - intros e w1 Hfetch. by rewrite (Hfails e w1 Hfetch).
  - intros n e Hpages Hn.
    pose proof (fetchPages_complete env _ _ _ _ _ Hpages fuel
                  (started env root (Config.projectKey config)
                     (fileRestriction env mode) w) Hn) as Hrun.
    rewrite <- (fetchIssues_unfold env root rest) in Hrun by done.
    rewrite (Hfails _ _ Hrun). split_and!; [reflexivity | | reflexivity].
    simpl. rewrite !lintCalls_app, lintCalls_requests. simpl.
    by rewrite !app_nil_r.
Qed.

(** After such a failure the caller's [setIssues] empties the visible store,
    and an attached view shows the placeholder. *)
Lemma remote_failure_shows_placeholder (w w1 : World) (e : Exn) :
  newHorizon (currentMode w) = false →
  fetchIssues env fuel (Config.server config) (Config.token config)
              (Config.projectKey config) (fileRestriction env (currentMode w)) w
  = (Raise e, w1) →
  ∃ w', refreshAndShow env fuel w = (Val tt, w')
        ∧ issuesByFile (provider w') = ∅
        ∧ treeView (provider w')
          = (fun _ => TreeView.mk (Some noIssuesMessage)) <$> treeView (provider w).
Proof using workspace_open config_present config_parsed.
  intros Hoverall Hfetch.
  assert (Hrun : refreshAllIssues env fuel (currentMode w) w = refreshFailed e w1).
  { apply refreshAllIssues_remote_raises.
    unfold remoteStep. rewrite Hoverall. simpl. unfold bind. by rewrite Hfetch. }
  destruct (fetchIssues_world env fuel (Config.server config) (Config.token config)
              (Config.projectKey config) (fileRestriction env (currentMode w)) w)
    as (evs & Hw1 & _).
  rewrite Hfetch in Hw1. simpl in Hw1. subst w1.
  set (w2 := emitted [ConsoleError (match e with
                                    | JsError m => m
                                    | JsThrown => "Something went wrong"
                                    end)] (emitted evs w)).
  destruct (updateStatusBar_frame 0 (withProvider (setIssues [] (provider w2)) w2))
    as (w' & Hw' & _ & _ & Hprovider).
  exists w'. split.
  { unfold refreshAndShow. unfold bind at 1. unfold gets at 1.
    unfold bind at 1. rewrite Hrun. exact Hw'. }
  rewrite Hprovider. simpl. split; [reflexivity |].
  by destruct (treeView (provider w)).
Qed.

(** C2 (amended): in a refresh that read its configuration and whose
    remote block returned, the local analysis runner is invoked exactly
    when the mode's horizon is "new-code" or the mode is "overall-all", and
    then once.  The analyzed file set is [[currentFile]] in a current-file
    mode with a current file, and otherwise what [findFiles] selects by
    extension with [node_modules] excluded. *)
Theorem local_analysis_invocation (mode : Mode) (w w1 : World)
    (sonarIssues : list SonarIssue) :
  remoteStep env fuel mode config root w = (Val sonarIssues, w1) →
  lintCalls (trace (refreshAllIssues env fuel mode w).2)
  = lintCalls (trace w)
    ++ (if runsLocalAnalysis mode then [filesToAnalyze env mode] else [])
  ∧ (runsLocalAnalysis mode = true ↔ newHorizon mode = true ∨ mode = OverallAll)
  ∧ (newHorizon mode = true ↔ mode = NewAll ∨ mode = NewFile)
  ∧ (fileBreadth mode = true ↔ mode = OverallFile ∨ mode = NewFile)
  ∧ (∀ f, fileBreadth mode = true → activeFile env = Some f → f ≠ "" →
          filesToAnalyze env mode = [f])
  ∧ (fileBreadth mode = false ∨ activeFile env = None ∨ activeFile env = Some "" →
     filesToAnalyze env mode
     = findFiles env "**/*.{js,ts,jsx,tsx}" "**/node_modules/**").
Proof using workspace_open config_present config_parsed.
  intros Hremote. split_and!.
  - rewrite (refreshAllIssues_remote_returns mode w sonarIssues w1 Hremote).
    destruct (remoteStep_world env fuel mode config root w) as (evs & Hw1 & Hevs).
    rewrite Hremote in Hw1. simpl in Hw1. subst w1.
    rewrite localStep_run.
    destruct (runsLocalAnalysis mode).
    + destruct (lintFiles env (filesToAnalyze env mode)) as [err | results];
        rewrite publishStep_run; unfold published; simpl;
        destruct (statusBarItem w); simpl;
        rewrite !lintCalls_app, Hevs; simpl; by rewrite ?app_nil_r.
    + rewrite publishStep_run. unfold published. simpl.
      destruct (statusBarItem w); simpl;
        rewrite !lintCalls_app, Hevs; simpl; by rewrite ?app_nil_r.
  - destruct mode; vm_compute; intuition congruence.
  - destruct mode; vm_compute; intuition congruence.
  - destruct mode; vm_compute; intuition congruence.
  - intros f Hfile Hactive Hf. unfold filesToAnalyze.
    rewrite Hfile, Hactive. simpl. by destruct (String.eqb_spec f "").
  - intros [Hall | [Hnone | Hempty]]; unfold filesToAnalyze.
    + by rewrite Hall.
    + rewrite Hnone. simpl. by rewrite andb_false_r.
    + rewrite Hempty. simpl. by rewrite andb_false_r.
Qed.

(** C9: when the lint engine fails, the local block shows the error and
    contributes no issue; the refresh returns the remote issues that pass
    the severity filter, publishes their markers and no other, and the
    caller's [setIssues] groups exactly those issues in the visible store. *)
Theorem local_failure_confined (w w1 : World) (sonarIssues : list SonarIssue)
    (err : Exn) :
  remoteStep env fuel (currentMode w) config root w = (Val sonarIssues, w1) →
  runsLocalAnalysis (currentMode w) = true →
  lintFiles env (filesToAnalyze env (currentMode w)) = inl err →
  ∃ w2 w3,
    refreshAllIssues env fuel (currentMode w) w
    = (Val (filterBySeverity (selectedSeverities w) sonarIssues), w2)
    ∧ refreshAndShow env fuel w = (Val tt, w3)
    ∧ ShowErrorMessage ("ESLint failed: " +:+ Js.tpl (exnMessage err)) ∈ trace w2
    ∧ diagnosticCollection w2
      = publishedDiagnostics (filterBySeverity (selectedSeverities w) sonarIssues) []
    ∧ diagnosticCollection w3 = diagnosticCollection w2
    ∧ (∀ f, diagnosticCollection w3 !! f
            = match filter (fun i => filePath i = f)
                           (filterBySeverity (selectedSeverities w) sonarIssues) with
              | [] => None
              | here => Some (diagnosticOf "SonarQube" <$> here)
              end)
    ∧ (∀ f, issuesByFile (provider w3) !! f
            = match filter (fun i => filePath i = f)
                           (filterBySeverity (selectedSeverities w) sonarIssues) with
              | [] => None
              | here => Some here
              end).
Proof using workspace_open config_present config_parsed.
  intros Hremote Hruns Hlint.
  pose proof (refreshAllIssues_remote_returns _ w sonarIssues w1 Hremote) as Hrun.
  destruct (remoteStep_world env fuel (currentMode w) config root w)
    as (evs & Hw1 & _).
  rewrite Hremote in Hw1. simpl in Hw1. subst w1.
  rewrite localStep_run, Hruns, Hlint, publishStep_run in Hrun.
  simpl in Hrun. rewrite filterBySeverity_nil, app_nil_r in Hrun.
  set (kept := filterBySeverity (selectedSeverities w) sonarIssues) in *.
  match type of Hrun with _ = (_, ?w2') => set (w2 := w2') in * end.
  destruct (published_frame kept []
              (emitted [LintFiles (filesToAnalyze env (currentMode w));
                        ShowErrorMessage ("ESLint failed: " +:+ Js.tpl (exnMessage err));
                        ConsoleError (Js.tpl (exnMessage err))] (emitted evs w)))
    as (Hdiag & Htrace & Hprovider & _ & _).
  fold w2 in Hdiag, Htrace, Hprovider.
  destruct (updateStatusBar_frame (length kept)
              (withProvider (setIssues kept (provider w2)) w2))
    as (w3 & Hw3 & Hdiag3 & _ & Hprovider3).
  exists w2, w3. split; [exact Hrun |]. split.
  { unfold refreshAndShow. unfold bind at 1. unfold gets at 1.
    unfold bind at 1. rewrite Hrun. unfold bind, modify. exact Hw3. }
  split_and!.
  - rewrite Htrace. simpl. set_solver.
  - exact Hdiag.
  - rewrite Hdiag3. reflexivity.
  - intros f. rewrite Hdiag3. simpl. rewrite Hdiag.
    apply publishedDiagnostics_remote_only.
  - intros f. rewrite Hprovider3. simpl.
    rewrite foldl_groupIssue_lookup, lookup_empty.
    by destruct (filter _ kept).
Qed.

End RefreshClaims.

(** The server is down, the lint engine has findings, the mode is
    "overall-all": the refresh returns nothing. *)
Lemma remote_failure_voids_cycle_witness :
  newHorizon OverallAll = false
  ∧ (refreshAllIssues (hostWith (inr fullConfig) serverDown lintFindings) 1 OverallAll
       (worldAfterActivate ["CRITICAL"])).1 = Val [].
Proof.
  split; [reflexivity |].
  erewrite (proj1 (remote_failure_voids_cycle
                     (hostWith (inr fullConfig) serverDown lintFindings) 1 "/w" []
                     fullConfig eq_refl eq_refl eq_refl OverallAll
                     (worldAfterActivate ["CRITICAL"]) eq_refl));
    [reflexivity | vm_compute; reflexivity].
Defined.

(** C2, as stated, fails in the mode "overall-all": its horizon is not
    "new-code", and the lint engine is run over the workspace's files. *)
Lemma overall_all_runs_local_analysis :
  newHorizon OverallAll = false
  ∧ lintCalls (trace (refreshAllIssues
                        (hostWith (inr fullConfig) serverUnavailable lintClean) 1
                        OverallAll (worldAfterActivate ["BLOCKER"])).2)
    = [["/w/src/a.ts"; "/w/src/c.ts"]].
Proof. split; vm_compute; reflexivity. Qed.

(** In the mode "new-file" the lint engine is given the current file. *)
Lemma local_analysis_invocation_witness :
  remoteStep (hostWith (inr fullConfig) serverDown lintFindings) 1 NewFile fullConfig "/w"
    (worldAfterActivate ["CRITICAL"])
  = (Val [], worldAfterActivate ["CRITICAL"])
  ∧ lintCalls (trace (refreshAllIssues
                        (hostWith (inr fullConfig) serverDown lintFindings) 1 NewFile
                        (worldAfterActivate ["CRITICAL"])).2)
    = [["/w/src/a.ts"]].
Proof.
  split; [reflexivity |].
  rewrite (proj1 (local_analysis_invocation
                    (hostWith (inr fullConfig) serverDown lintFindings) 1 "/w" []
                    fullConfig eq_refl eq_refl eq_refl NewFile
                    (worldAfterActivate ["CRITICAL"]) (worldAfterActivate ["CRITICAL"])
                    [] eq_refl)).
  reflexivity.
Defined.

(** The lint engine cannot run, the server has one issue for [src/a.ts]:
    the issue is returned and grouped in the visible store. *)
Lemma local_failure_confined_witness :
  lintFiles (hostWith (inr fullConfig) serverOnePage lintBroken)
    (filesToAnalyze (hostWith (inr fullConfig) serverOnePage lintBroken) OverallAll)
  = inl (JsError "Failed to load parser")
  ∧ ∃ w3, refreshAndShow (hostWith (inr fullConfig) serverOnePage lintBroken) 1
            (worldAfterActivate ["MAJOR"]) = (Val tt, w3)
          ∧ issuesByFile (provider w3) !! "/w/src/a.ts" = Some [issueA].
Proof.
  split; [reflexivity |].
  destruct (local_failure_confined
              (hostWith (inr fullConfig) serverOnePage lintBroken) 1 "/w" []
              fullConfig eq_refl eq_refl eq_refl (worldAfterActivate ["MAJOR"])
              ((remoteStep (hostWith (inr fullConfig) serverOnePage lintBroken) 1
                  OverallAll fullConfig "/w" (worldAfterActivate ["MAJOR"])).2)
              [issueA] (JsError "Failed to load parser") eq_refl eq_refl eq_refl)
    as (w2 & w3 & _ & Hshow & _ & _ & _ & _ & Hstore).
  exists w3. split; [exact Hshow |]. rewrite Hstore. reflexivity.
Defined.

(** With the server of 1200 records, three pages are requested. *)
Lemma fetchIssues_pagination_witness :
  workspaceFolders (hostWith (inr fullConfig) serverPaged lintClean) = Some ["/w"]
  ∧ Request.p <$> httpRequests
      (trace (fetchIssues (hostWith (inr fullConfig) serverPaged lintClean) 10
                (Some "http://sonar.local") (Some "squ_token") (Some "proj") None
                (worldAfterActivate ["MAJOR"])).2)
    = [1; 2; 3]
  ∧ (fetchIssues (hostWith (inr fullConfig) serverPaged lintClean) 10
       (Some "http://sonar.local") (Some "squ_token") (Some "proj") None
       (worldAfterActivate ["MAJOR"])).1
    = Val (replicate 1200 recordA).
Proof.
  split; [reflexivity |].
  pose proof (fetchIssues_pagination (hostWith (inr fullConfig) serverPaged lintClean)
                "/w" [] (Some "http://sonar.local") (Some "squ_token") (Some "proj") None
                10 (worldAfterActivate ["MAJOR"]) eq_refl) as (_ & _ & _ & _ & Hpages).
  rewrite (Hpages (replicate 500 recordA) (replicate 500 recordA) (replicate 200 recordA)
             eq_refl eq_refl eq_refl);
    [split; vm_compute; reflexivity | vm_compute; reflexivity .. | lia].
Defined.

(** ** Missing and incomplete configuration *)

(** Without the configuration file the refresh warns and returns nothing:
    no request is sent and the lint engine is not run. *)
Lemma refresh_without_config (env : Env) (fuel : nat) (mode : Mode) (w : World)
    (root : string) (rest : list string) :
  workspaceFolders env = Some (root :: rest) →
  existsSync env (configPathOf env root) = false →
  refreshAllIssues env fuel mode w
  = (Val [], emitted [ShowWarningMessage "Sonar config not found"] w).
Proof.
  intros Hws Hcfg. rewrite refreshAllIssues_steps.
  unfold tryCatch. rewrite Hws. unfold bind at 1. unfold ret at 1.
  rewrite Hcfg. reflexivity.
Qed.

(** C8, at configuration files that parse and miss fields.  With a file
    that holds [{}], in the mode "new-all" the refresh shows no warning and
    no error, runs the lint engine and returns its findings.  With a file
    that sets the server and misses the token and the project key, in the
    mode "overall-all" the refresh sends a request built from the missing
    fields to that server, which refuses it; the refresh shows no warning and
    no error, runs the lint engine and returns its findings. *)
Theorem refresh_with_incomplete_config :
  (refreshAllIssues (hostWith (inr emptyConfig) serverDown lintFindings) 1 NewAll
     (worldAfterActivate ["CRITICAL"; "MAJOR"])).1
  = Val [lintIssueIn "/w/src/a.ts"; lintIssueIn "/w/src/c.ts"]
  ∧ lintCalls (trace (refreshAllIssues
                        (hostWith (inr emptyConfig) serverDown lintFindings) 1 NewAll
                        (worldAfterActivate ["CRITICAL"; "MAJOR"])).2)
    = [["/w/src/a.ts"; "/w/src/c.ts"]]
  ∧ shownMessages (trace (refreshAllIssues
                            (hostWith (inr emptyConfig) serverDown lintFindings) 1 NewAll
                            (worldAfterActivate ["CRITICAL"; "MAJOR"])).2)
    = []
  ∧ httpRequests (trace (refreshAllIssues
                           (hostWith (inr serverOnlyConfig) serverUnavailable lintFindings)
                           1 OverallAll (worldAfterActivate ["CRITICAL"; "MAJOR"])).2)
    = [Request.mk "http://sonar.local" "undefined" "BLOCKER" "OPEN,REOPENED" 1 500 ""
                  "undefined"]
  ∧ lintCalls (trace (refreshAllIssues
                        (hostWith (inr serverOnlyConfig) serverUnavailable lintFindings)
                        1 OverallAll (worldAfterActivate ["CRITICAL"; "MAJOR"])).2)
    = [["/w/src/a.ts"; "/w/src/c.ts"]]
  ∧ shownMessages (trace (refreshAllIssues
                            (hostWith (inr serverOnlyConfig) serverUnavailable
                               lintFindings)
                            1 OverallAll (worldAfterActivate ["CRITICAL"; "MAJOR"])).2)
    = []
  ∧ (refreshAllIssues (hostWith (inr serverOnlyConfig) serverUnavailable lintFindings) 1
       OverallAll (worldAfterActivate ["CRITICAL"; "MAJOR"])).1
    = Val [lintIssueIn "/w/src/a.ts"; lintIssueIn "/w/src/c.ts"].
Proof. split_and!; vm_compute; reflexivity. Qed.

(** The hardened copy checks the three fields: when one of them is missing
    or empty it shows an error and returns nothing, before any request and
    before the lint engine. *)
Lemma hardened_refresh_checks_config (env : Env) (fuel : nat) (mode : Mode) (w : World)
    (root : string) (rest : list string) (config : Config.t) :
  workspaceFolders env = Some (root :: rest) →
  existsSync env (configPathOf env root) = true →
  readConfig env (configPathOf env root) = inr config →
  Js.truthy (Config.server config) && Js.truthy (Config.token config)
  && Js.truthy (Config.projectKey config) = false →
  Hardened.refreshAllIssues env fuel mode w
  = (Val [], emitted [ShowErrorMessage Hardened.invalidConfigMessage] w).
Proof.
  intros Hws Hcfg Hread Hfields.
  unfold Hardened.refreshAllIssues, tryCatch. rewrite Hws.
  unfold bind at 1. unfold ret at 1. fold (configPathOf env root).
  rewrite Hcfg. simpl. unfold bind at 1. rewrite Hread. simpl.
  destruct (Js.truthy (Config.server config)), (Js.truthy (Config.token config)),
    (Js.truthy (Config.projectKey config)); try discriminate; reflexivity.
Qed.

(** At the inputs where [refreshAllIssues] departs from the specification,
    the hardened copy returns nothing and shows the error for the
    configurations that miss fields, and runs no local analysis in the mode
    "overall-all".  It also returns nothing when the server is down, and in a
    mode of horizon "new-code" whatever the lint engine finds. *)
Lemma hardened_refresh_at_the_same_inputs :
  Hardened.refreshAllIssues (hostWith (inr emptyConfig) serverDown lintFindings) 1 NewAll
    (withMode NewAll (worldAfterActivate ["CRITICAL"; "MAJOR"]))
  = (Val [], emitted [ShowErrorMessage Hardened.invalidConfigMessage]
               (withMode NewAll (worldAfterActivate ["CRITICAL"; "MAJOR"])))
  ∧ Hardened.refreshAllIssues
      (hostWith (inr serverOnlyConfig) serverUnavailable lintFindings) 1 OverallAll
      (worldAfterActivate ["CRITICAL"; "MAJOR"])
    = (Val [], emitted [ShowErrorMessage Hardened.invalidConfigMessage]
                 (worldAfterActivate ["CRITICAL"; "MAJOR"]))
  ∧ lintCalls (trace (Hardened.refreshAllIssues
                        (hostWith (inr fullConfig) serverUnavailable lintClean) 1
                        OverallAll (worldAfterActivate ["BLOCKER"])).2)
    = []
  ∧ (Hardened.refreshAllIssues (hostWith (inr fullConfig) serverDown lintFindings) 1
       OverallAll (worldAfterActivate ["CRITICAL"])).1
    = Val []
  ∧ (Hardened.refreshAllIssues (hostWith (inr fullConfig) serverDown lintFindings) 1
       NewAll (withMode NewAll (worldAfterActivate ["CRITICAL"]))).1
    = Val [].
Proof. split_and!; vm_compute; reflexivity. Qed.

(** * Further properties of the extension *)

(** ** The outcomes of a refresh *)

Lemma keepsSession_emitted (evs : list Event) (w : World) : keepsSession w (emitted evs w).
Proof. unfold keepsSession. simpl. split_and!; try reflexivity. by exists evs. Qed.

Lemma keepsSession_published (sonarIssues localIssues : list SonarIssue)
    (evs : list Event) (w : World) :
  keepsSession w (published sonarIssues localIssues (emitted evs w)).
Proof.
  unfold keepsSession, published. simpl.
  destruct (statusBarItem w); simpl; split_and!; try reflexivity; by exists evs.
Qed.

Lemma lintIssue_severity (result : LintResult) (msg : LintMessage) :
  severity (lintIssue result msg) ∈ ["CRITICAL"; "MAJOR"; "INFO"].
Proof.
  simpl.
  destruct (mapEslintSeverity_cases (lintSeverity msg)) as [[-> _] | [[-> _] | [-> _]]];
    set_solver.
Qed.

Lemma lintIssues_severity (results : list LintResult) :
  Forall (fun i => severity i ∈ ["CRITICAL"; "MAJOR"; "INFO"])
         (flat_map (fun result => lintIssue result <$> messages result) results).
Proof.
  induction results as [| result results IH]; simpl; [constructor |].
  apply Forall_app. split; [| exact IH].
  apply Forall_fmap, Forall_forall. intros msg _. apply lintIssue_severity.
Qed.

Lemma filterBySeverity_within (sel : list string) (issues : list SonarIssue) :
  Forall (fun i => severity i ∈ sel) (filterBySeverity sel issues).
Proof.
  apply Forall_forall. intros i Hi.
  unfold filterBySeverity in Hi. by apply list_elem_of_filter in Hi as [Hsev _].
Qed.

Lemma filterBySeverity_none (sel : list string) (issues : list SonarIssue) :
  Forall (fun i => severity i ∉ sel) issues → filterBySeverity sel issues = [].
Proof.
  induction 1 as [| i issues Hi _ IH]; [reflexivity |].
  unfold filterBySeverity in *. rewrite filter_cons.
  destruct (decide (severity i ∈ sel)); [done | exact IH].
Qed.

Lemma httpRequests_app (t1 t2 : list Event) :
  httpRequests (t1 ++ t2) = httpRequests t1 ++ httpRequests t2.
Proof. apply omap_app. Qed.

Lemma httpRequests_requests (rs : list Request.t) : httpRequests (HttpRequest <$> rs) = rs.
Proof.
  induction rs as [| r rs IH]; [reflexivity |].
  change (r :: httpRequests (HttpRequest <$> rs) = r :: rs). by rewrite IH.
Qed.

Lemma asksSelected_app (env : Env) (evs1 evs2 : list Event) :
  asksSelected env evs1 → httpRequests evs2 = [] → asksSelected env (evs1 ++ evs2).
Proof.
  unfold asksSelected. intros H1 H2. by rewrite httpRequests_app, H2, app_nil_r.
Qed.

Section RequestsSent.

Variable env : Env.

(** The loop asks for consecutive pages, from the first on. *)
Lemma fetchPages_pages request fuel : ∀ page acc w,
  ∃ n, (fetchPages env fuel request page acc w).2
       = requested (request <$> pagesFrom page n) w.
Proof.
  induction fuel as [| fuel IH]; intros page acc w.
  - exists 0%nat. simpl. by rewrite requested_nil.
  - rewrite fetchPages_step.
    destruct (verdict env request page) as [e | | | records | records];
      try (exists 1%nat; by rewrite pagesFrom_S).
    destruct (IH (page + 1)%Z (acc ++ records) (requested [request page] w)) as [n Hn].
    exists (S n). by rewrite Hn, pagesFrom_S, requested_app.
Qed.

Lemma fetchIssues_asks fuel server token projectKey filePath w :
  ∃ evs, (fetchIssues env fuel server token projectKey filePath w).2 = emitted evs w
         ∧ asksSelected env evs.
Proof.
  assert (Hloop : ∀ extraFilter,
    ∃ evs, (bind (emit (ConsoleLog ("extraFilter " +:+ extraFilter)))
              (fun _ => fetchPages env fuel
                          (searchRequest env server token projectKey extraFilter) 1 [])
              w).2 = emitted evs w
           ∧ asksSelected env evs).
  { intros extraFilter. unfold bind, emit, modify.
    match goal with
    | |- context [fetchPages env fuel ?rq ?pg ?acc ?w0] =>
        destruct (fetchPages_pages rq fuel pg acc w0) as [n Hn]
    end.
    eexists (_ :: (HttpRequest <$> _)). rewrite Hn. split.
    - unfold requested, emitted, withTrace. simpl. by rewrite <- app_assoc.
    - unfold asksSelected.
      change (Forall (fun rq => Request.severities rq
                                = Js.join "," (configuredSeverities env))
                (httpRequests (HttpRequest
                   <$> (searchRequest env server token projectKey extraFilter
                        <$> pagesFrom 1 n)))).
      rewrite httpRequests_requests. apply Forall_fmap, Forall_forall.
      intros page _. reflexivity. }
  unfold fetchIssues. unfold bind at 1.
  destruct (Js.truthy filePath); [| apply Hloop].
  destruct (workspaceFolders env) as [[| root rest] |];
    first [ apply Hloop | exists []; rewrite emitted_nil; split; [done | constructor] ].
Qed.

Lemma remoteStep_asks fuel mode config root w :
  ∃ evs, (remoteStep env fuel mode config root w).2 = emitted evs w
         ∧ asksSelected env evs.
Proof.
  unfold remoteStep. destruct (negb (newHorizon mode)).
  - unfold bind.
    destruct (fetchIssues_asks fuel (Config.server config) (Config.token config)
                (Config.projectKey config) (fileRestriction env mode) w)
      as (evs & Hevs & Hasks).
    exists evs. split; [| exact Hasks].
    destruct (fetchIssues env fuel _ _ _ _ w) as [[api | e |] w1]; simpl in *;
      [| done | done].
    unfold liftRes. simpl. exact Hevs.
  - exists []. rewrite emitted_nil. split; [done | constructor].
Qed.

End RequestsSent.

Section RefreshOutcomes.

Variable env : Env.

Lemma refresh_with_unreadable_config fuel mode w root rest e :
  workspaceFolders env = Some (root :: rest) →
  existsSync env (configPathOf env root) = true →
  readConfig env (configPathOf env root) = inl e →
  refreshAllIssues env fuel mode w = refreshFailed e w.
Proof.
  intros Hws Hcfg Hread. rewrite refreshAllIssues_steps.
  unfold tryCatch. rewrite Hws. unfold bind at 1. unfold ret at 1.
  rewrite Hcfg. simpl. unfold bind at 1. rewrite Hread. reflexivity.
Qed.

(** Every way a refresh can end: with nothing, after some events; cut off
    in the pagination loop; or with the remote issues and the local
    findings, filtered and published. *)
Lemma refreshAllIssues_cases (fuel : nat) (mode : Mode) (w : World) :
  (∃ evs, refreshAllIssues env fuel mode w = (Val [], emitted evs w)
          ∧ asksSelected env evs)
  ∨ (∃ evs, refreshAllIssues env fuel mode w = (OutOfFuel, emitted evs w)
            ∧ newHorizon mode = false
            ∧ asksSelected env evs)
  ∨ (∃ evs sonarIssues localIssues,
       refreshAllIssues env fuel mode w
       = (Val (filterBySeverity (selectedSeverities w) sonarIssues
               ++ filterBySeverity (selectedSeverities w) localIssues),
          published (filterBySeverity (selectedSeverities w) sonarIssues)
                    (filterBySeverity (selectedSeverities w) localIssues)
                    (emitted evs w))
       ∧ (newHorizon mode = true → sonarIssues = [])
       ∧ Forall (fun i => severity i ∈ ["CRITICAL"; "MAJOR"; "INFO"]) localIssues
       ∧ asksSelected env evs).
Proof.
  destruct (workspaceFolders env) as [[| root rest] |] eqn:Hws.
  - left. eexists [_]. rewrite refreshAllIssues_steps. unfold tryCatch.
    rewrite Hws. split; [reflexivity | constructor].
  - destruct (existsSync env (configPathOf env root)) eqn:Hcfg.
    2:{ left. eexists [_].
        split; [by apply (refresh_without_config env fuel mode w root rest) |].
        constructor. }
    destruct (readConfig env (configPathOf env root)) as [e | config] eqn:Hread.
    { left. eexists [_].
      rewrite (refresh_with_unreadable_config fuel mode w root rest e Hws Hcfg Hread).
      split; [reflexivity | constructor]. }
    destruct (remoteStep_asks env fuel mode config root w) as (evs & Hw1 & Hasks).
    destruct (remoteStep env fuel mode config root w) as [[sonarIssues | e |] w1]
      eqn:Hremote; simpl in Hw1; subst w1.
    + right; right.
      assert (Hnew : newHorizon mode = true → sonarIssues = []).
      { intros Hmode. unfold remoteStep in Hremote. rewrite Hmode in Hremote.
        simpl in Hremote. by inversion Hremote. }
      rewrite (refreshAllIssues_remote_returns env fuel root rest config Hws Hcfg Hread
                 mode w sonarIssues _ Hremote), localStep_run.
      destruct (runsLocalAnalysis mode);
        [destruct (lintFiles env (filesToAnalyze env mode)) as [err | results] |];
        rewrite publishStep_run.
      * eexists _, sonarIssues, []. rewrite emitted_app.
        split_and!; [reflexivity | exact Hnew | constructor |].
        by apply asksSelected_app.
      * eexists _, sonarIssues, _. rewrite emitted_app.
        split_and!; [reflexivity | exact Hnew | apply lintIssues_severity |].
        by apply asksSelected_app.
      * eexists evs, sonarIssues, []. by split_and!.
    + left. eexists (evs ++ [_]). rewrite <- emitted_app. split.
      * by rewrite (refreshAllIssues_remote_raises env fuel root rest config Hws Hcfg
                      Hread mode w e _ Hremote).
      * by apply asksSelected_app.
    + right; left. exists evs. split_and!; [| | exact Hasks].
      * rewrite (refreshAllIssues_configured env fuel mode root rest config w Hws Hcfg
                   Hread).
        unfold tryCatch, bind. by rewrite Hremote.
      * destruct (newHorizon mode) eqn:Hmode; [| reflexivity].
        unfold remoteStep in Hremote. rewrite Hmode in Hremote. discriminate.
  - left. exists []. rewrite emitted_nil, refreshAllIssues_steps. unfold tryCatch.
    rewrite Hws. split; [reflexivity | constructor].
Qed.

End RefreshOutcomes.

(** X1: [refreshAllIssues] never throws to its caller, on any host, in any
    mode and from any state: whatever fails inside is caught and the result
    is a list.  The one unbounded loop is the pagination of the remote fetch,
    which only the overall modes run. *)
Theorem refreshAllIssues_never_throws (env : Env) (fuel : nat) (mode : Mode) (w : World) :
  match (refreshAllIssues env fuel mode w).1 with
  | Val _ => True
  | Raise _ => False
  | OutOfFuel => newHorizon mode = false
  end.
Proof.
  destruct (refreshAllIssues_cases env fuel mode w)
    as [(evs & -> & _) | [(evs & -> & Hmode & _) | (evs & s & l & -> & _)]]; simpl; done.
Qed.

(** X2: every issue [refreshAllIssues] returns has a severity of the
    selection in force when it was called, whatever the server and the lint
    engine reported; and the same issues are the ones published. *)
Theorem refreshAllIssues_within_selection (env : Env) (fuel : nat) (mode : Mode)
    (w : World) :
  Forall (fun i => severity i ∈ selectedSeverities w)
         (returned (refreshAllIssues env fuel mode w).1).
Proof.
  destruct (refreshAllIssues_cases env fuel mode w)
    as [(evs & -> & _) | [(evs & -> & Hmode & _) | (evs & s & l & -> & _)]]; simpl;
    try constructor.
  apply Forall_app. split; apply filterBySeverity_within.
Qed.

(** X3: [refreshAllIssues] leaves the extension's tree provider alone (the
    provider it fills is one of its own), and the mode, the selected
    severities and the auto-refresh flag; and it only adds to what was
    logged, shown and requested. *)
Theorem refreshAllIssues_keeps_session (env : Env) (fuel : nat) (mode : Mode)
    (w : World) :
  keepsSession w (refreshAllIssues env fuel mode w).2.
Proof.
  destruct (refreshAllIssues_cases env fuel mode w)
    as [(evs & -> & _) | [(evs & -> & Hmode & _) | (evs & s & l & -> & _)]]; simpl;
    auto using keepsSession_emitted, keepsSession_published.
Qed.

(** X4: without a usable configuration (no workspace open, no
    [.vscode/sonar-config.json] in the first folder, or a file that cannot be
    read or parsed) a refresh returns no issue, sends no request and runs no
    lint; it only adds events to the trace, so what was published stays. *)
Theorem refresh_without_usable_config (env : Env) (fuel : nat) (mode : Mode) (w : World) :
  (workspaceFolders env = None
   ∨ ∃ root rest, workspaceFolders env = Some (root :: rest)
       ∧ (existsSync env (configPathOf env root) = false
          ∨ ∃ e, readConfig env (configPathOf env root) = inl e)) →
  ∃ evs, refreshAllIssues env fuel mode w = (Val [], emitted evs w)
         ∧ httpRequests evs = []
         ∧ lintCalls evs = []
         ∧ (length evs ≤ 1)%nat.
Proof.
  intros [Hws | (root & rest & Hws & Hconfig)].
  - exists []. rewrite emitted_nil, refreshAllIssues_steps. unfold tryCatch.
    rewrite Hws. split_and!; [reflexivity .. | simpl; lia].
  - destruct (existsSync env (configPathOf env root)) eqn:Hcfg.
    + destruct Hconfig as [Hno | [e Hread]]; [discriminate |].
      rewrite (refresh_with_unreadable_config env fuel mode w root rest e Hws Hcfg Hread).
      eexists [_]. split_and!; [reflexivity .. | simpl; lia].
    + rewrite (refresh_without_config env fuel mode w root rest Hws Hcfg).
      eexists [_]. split_and!; [reflexivity .. | simpl; lia].
Qed.

Lemma refresh_without_usable_config_witness :
  ∃ evs, refreshAllIssues hostMalformedConfig 5 OverallAll (worldAfterActivate ["MAJOR"])
         = (Val [], emitted evs (worldAfterActivate ["MAJOR"]))
         ∧ httpRequests evs = []
         ∧ lintCalls evs = []
         ∧ (length evs ≤ 1)%nat.
Proof.
  apply refresh_without_usable_config.
  right. exists "/w", []. split; [reflexivity |].
  right. eexists. reflexivity.
Defined.

(** X5: the lint findings only ever carry the severities CRITICAL, MAJOR
    and INFO; so in a new-code mode, a selection holding none of the three
    (the default selection, BLOCKER alone, is one) makes the refresh return
    no issue, whatever the lint engine reports. *)
Theorem new_code_hidden_by_selection (env : Env) (fuel : nat) (mode : Mode) (w : World) :
  newHorizon mode = true →
  ("CRITICAL" ∉ selectedSeverities w)
  ∧ ("MAJOR" ∉ selectedSeverities w)
  ∧ ("INFO" ∉ selectedSeverities w) →
  (refreshAllIssues env fuel mode w).1 = Val [].
Proof.
  intros Hmode (Hc & Hm & Hi).
  destruct (refreshAllIssues_cases env fuel mode w)
    as [(evs & -> & _) | [(evs & -> & Hold & _) | (evs & s & l & -> & Hs & Hl & _)]];
    [reflexivity | congruence |].
  simpl. rewrite (Hs Hmode), filterBySeverity_nil, (filterBySeverity_none _ l);
    [reflexivity |].
  eapply Forall_impl; [exact Hl |].
  intros i Hsev Hsel. simpl in Hsev.
  rewrite !elem_of_cons in Hsev.
  destruct Hsev as [E | [E | [E | E]]]; [congruence .. |].
  by apply elem_of_nil in E.
Qed.

Lemma new_code_hidden_by_selection_witness :
  (refreshAllIssues (hostWith (inr fullConfig) serverOnePage lintFindings) 5 NewAll
     (withMode NewAll (activated (hostWith (inr fullConfig) serverOnePage lintFindings)))).1
  = Val [].
Proof.
  apply new_code_hidden_by_selection; [reflexivity |].
  split_and!; intros H; apply list_elem_of_singleton in H; discriminate.
Defined.

(** X6: a file-scoped mode with no active file (none, or an empty path)
    is not an error: the remote fetch sends no file filter, the reconciler
    keeps every file, and [new-file] refreshes exactly as [new-all] does. *)
Theorem file_scope_without_active_file (env : Env) (fuel : nat) (w : World)
    (server token projectKey : option string) (rawIssues : list Raw.Issue)
    (workspaceRoot : string) :
  Js.truthy (activeFile env) = false →
  fetchIssues env fuel server token projectKey (activeFile env)
  = fetchIssues env fuel server token projectKey None
  ∧ filterByWorkspace env rawIssues projectKey workspaceRoot (activeFile env)
    = filterByWorkspace env rawIssues projectKey workspaceRoot None
  ∧ refreshAllIssues env fuel NewFile w = refreshAllIssues env fuel NewAll w.
Proof.
  intros Hfile. split_and!.
  - unfold fetchIssues. by rewrite Hfile.
  - unfold filterByWorkspace, inWorkspace. by rewrite Hfile.
  - rewrite !refreshAllIssues_steps.
    assert (Hlocal : localStep env NewFile = localStep env NewAll).
    { unfold localStep, filesToAnalyze. rewrite Hfile. reflexivity. }
    by rewrite Hlocal.
Qed.

Lemma file_scope_without_active_file_witness :
  fetchIssues (withoutEditor plainHost) 5 (Some "http://sonar.local") (Some "squ_token")
    (Some "proj") (activeFile (withoutEditor plainHost))
  = fetchIssues (withoutEditor plainHost) 5 (Some "http://sonar.local") (Some "squ_token")
      (Some "proj") None
  ∧ filterByWorkspace (withoutEditor plainHost) [recordA; recordB] (Some "proj") "/w"
      (activeFile (withoutEditor plainHost))
    = filterByWorkspace (withoutEditor plainHost) [recordA; recordB] (Some "proj") "/w" None
  ∧ refreshAllIssues (withoutEditor plainHost) 5 NewFile (worldAfterActivate ["MAJOR"])
    = refreshAllIssues (withoutEditor plainHost) 5 NewAll (worldAfterActivate ["MAJOR"]).
Proof. apply file_scope_without_active_file. reflexivity. Defined.

(** ** The lint pass and the markers *)

(** X7: when the lint engine returns, [runESLintAnalysis] asks it once and
    returns exactly one issue per message, in the order of the results and,
    within a result, of its messages: the issue at each place is in the file
    of the result and carries the text of the message, the severity
    [mapEslintSeverity] gives the message's, and the message's rule, or
    ["ESLint"] when the rule is missing or empty.  So every issue has a
    severity among CRITICAL, MAJOR and INFO and a rule that is not empty. *)
Theorem runESLintAnalysis_issues (env : Env) (files : list string)
    (results : list LintResult) (w : World) :
  lintFiles env files = inr results →
  ∃ issues,
    runESLintAnalysis env files w = (Val issues, emitted [LintFiles files] w)
    ∧ Forall2 (fun i found =>
        filePath i = resultFilePath found.1
        ∧ message i = lintText found.2
        ∧ severity i = mapEslintSeverity (lintSeverity found.2)
        ∧ fieldOr (ruleId found.2) "ESLint" (rule i))
        issues
        (flat_map (fun result => (fun msg => (result, msg)) <$> messages result) results)
    ∧ Forall (fun i => severity i ∈ ["CRITICAL"; "MAJOR"; "INFO"] ∧ rule i ≠ "") issues.
Proof.
  intros Hlint. eexists. split.
  { unfold runESLintAnalysis, bind, emit, modify. simpl. rewrite Hlint. reflexivity. }
  split.
  - clear Hlint. induction results as [| result results IH]; [constructor |].
    cbn [flat_map]. apply Forall2_app; [| exact IH].
    apply Forall2_fmap, Forall_Forall2_diag, Forall_forall. intros msg _.
    simpl. split_and!; try reflexivity. apply Js_or_spec.
  - apply Forall_forall. intros i Hi.
    apply list_elem_of_In, in_flat_map in Hi as (result & Hresult & Hi).
    apply list_elem_of_In, list_elem_of_fmap in Hi as (msg & -> & Hmsg).
    split; [apply lintIssue_severity |].
    simpl. destruct (ruleId msg) as [[| c s] |]; simpl; discriminate.
Qed.

Lemma runESLintAnalysis_issues_witness :
  ∃ issues,
    runESLintAnalysis (hostWith (inr fullConfig) serverDown lintFindings)
      ["/w/src/a.ts"; "/w/src/c.ts"] (worldAfterActivate ["MAJOR"])
    = (Val issues,
       emitted [LintFiles ["/w/src/a.ts"; "/w/src/c.ts"]] (worldAfterActivate ["MAJOR"]))
    ∧ Forall2 (fun i found =>
        filePath i = resultFilePath found.1
        ∧ message i = lintText found.2
        ∧ severity i = mapEslintSeverity (lintSeverity found.2)
        ∧ fieldOr (ruleId found.2) "ESLint" (rule i))
        issues
        (flat_map (fun result => (fun msg => (result, msg)) <$> messages result)
           [mkLintResult "/w/src/a.ts"
              [mkLintMessage "'x' is not defined." (Some "no-undef") (EslintNum 2) 7];
            mkLintResult "/w/src/c.ts"
              [mkLintMessage "'x' is not defined." (Some "no-undef") (EslintNum 2) 7]])
    ∧ Forall (fun i => severity i ∈ ["CRITICAL"; "MAJOR"; "INFO"] ∧ rule i ≠ "") issues.
Proof. apply runESLintAnalysis_issues. reflexivity. Defined.

(** X8: after [showSeparatedDiagnostics], whatever was published before,
    a file holds the markers of its remote issues, in order and sourced
    SonarQube, followed by those of its local issues, sourced ESLint; and a
    file with no issue in either list holds none. *)
Theorem showSeparatedDiagnostics_per_file (sonarIssues localIssues : list SonarIssue)
    (w : World) (f : string) :
  diagnosticCollection (showSeparatedDiagnostics sonarIssues localIssues w).2 !! f
  = match filter (fun i => filePath i = f) sonarIssues,
          filter (fun i => filePath i = f) localIssues with
    | [], [] => None
    | remote, local =>
        Some ((diagnosticOf "SonarQube" <$> remote) ++ (diagnosticOf "ESLint" <$> local))
    end.
Proof.
  simpl. unfold publishedDiagnostics.
  rewrite !foldl_addDiagnostic_lookup, lookup_empty.
  destruct (filter _ sonarIssues), (filter _ localIssues); simpl;
    by rewrite ?app_nil_r.
Qed.

(** X9: the marker of a lint finding is an error for ESLint's severity 2
    or "error", a warning for 1 or "warn", and an information for anything
    else; it is never a hint. *)
Theorem lint_marker_severity (source : string) (result : LintResult) (msg : LintMessage) :
  Diagnostic.severity (diagnosticOf source (lintIssue result msg))
  = if isNum (lintSeverity msg) 2 || isStr (lintSeverity msg) "error" then DiagError
    else if isNum (lintSeverity msg) 1 || isStr (lintSeverity msg) "warn" then DiagWarning
    else DiagInformation.
Proof.
  unfold diagnosticOf, lintIssue, mapEslintSeverity. simpl.
  destruct (isNum (lintSeverity msg) 2 || isStr (lintSeverity msg) "error");
    [reflexivity |].
  destruct (isNum (lintSeverity msg) 1 || isStr (lintSeverity msg) "warn"); reflexivity.
Qed.

(** ** The tree *)

(** X10: the icon of an issue in the tree and the severity of its marker
    in the editor agree, for every severity string, known or not: an error
    icon with an error marker, a warning icon with a warning marker, an
    info icon otherwise. *)
Theorem issue_icon_matches_marker (asRelativePath : string → string)
    (p : SonarIssuesProvider) (i : SonarIssue) (source : string) :
  ∃ item icon,
    getTreeItem asRelativePath p (IssueNode i) = Val item
    ∧ TreeItem.iconPath item = Some icon
    ∧ TreeItem.id icon
      = match Diagnostic.severity (diagnosticOf source i) with
        | DiagError => "error"
        | DiagWarning => "warning"
        | DiagInformation | DiagHint => "info"
        end.
Proof.
  eexists _, _. split_and!; [reflexivity .. |].
  unfold diagnosticOf, severityIcon, mapSeverity.
  destruct (String.eqb (severity i) "BLOCKER"); [reflexivity |].
  destruct (String.eqb (severity i) "CRITICAL"); [reflexivity |].
  destruct (String.eqb (severity i) "MAJOR"); [reflexivity |].
  destruct (String.eqb (severity i) "MINOR"); [reflexivity |].
  destruct (String.eqb (severity i) "INFO"); reflexivity.
Qed.



Lemma flat_map_ext_elem {A B} (f g : A → list B) (l : list A) :
  (∀ x, x ∈ l → f x = g x) → flat_map f l = flat_map g l.
Proof.
  induction l as [| x l IH]; intros Hfg; simpl; [reflexivity |].
  rewrite (Hfg x) by left. rewrite IH; [reflexivity |].
  intros y Hy. apply Hfg. by right.
Qed.

Lemma flat_map_fmap {A B C} (f : B → list C) (h : A → B) (l : list A) :
  flat_map f (h <$> l) = flat_map (fun x => f (h x)) l.
Proof.
  induction l as [| x l IH]; [reflexivity |].
  rewrite fmap_cons. cbn [flat_map]. by rewrite IH.
Qed.

Lemma fmap_flat_map {A B C} (h : B → C) (f : A → list B) (l : list A) :
  h <$> flat_map f l = flat_map (fun x => h <$> f x) l.
Proof.
  induction l as [| x l IH]; [reflexivity |].
  cbn [flat_map]. by rewrite fmap_app, IH.
Qed.

(** Grouping by distinct keys that cover the list only reorders it. *)
Lemma grouping_Permutation (issues : list SonarIssue) (keys : list string) :
  NoDup keys →
  (∀ i, i ∈ issues → filePath i ∈ keys) →
  flat_map (fun f => filter (fun i => filePath i = f) issues) keys ≡ₚ issues.
Proof.
  intros Hnodup. induction issues as [| i l IH]; intros Hcover.
  - clear. induction keys as [| k keys IH]; simpl; [reflexivity | exact IH].
  - assert (Hi : filePath i ∈ keys) by (apply Hcover; left).
    apply list_elem_of_split in Hi as (k1 & k2 & Hkeys).
    assert (Hl : ∀ j, j ∈ l → filePath j ∈ keys) by (intros j Hj; apply Hcover; by right).
    specialize (IH Hl). clear Hcover Hl. subst keys.
    apply NoDup_app in Hnodup as (_ & Hk1 & Hk2).
    apply NoDup_cons in Hk2 as [Hk2 _].
    rewrite flat_map_app in IH |- *. simpl in IH |- *.
    rewrite (flat_map_ext_elem _ (fun f => filter (fun j => filePath j = f) l) k1).
    2:{ intros f Hf. rewrite filter_cons.
        destruct (decide (filePath i = f)) as [<- | _]; [| reflexivity].
        destruct (Hk1 _ Hf). left. }
    rewrite (flat_map_ext_elem _ (fun f => filter (fun j => filePath j = f) l) k2).
    2:{ intros f Hf. rewrite filter_cons.
        destruct (decide (filePath i = f)) as [<- | _]; [| reflexivity].
        by destruct Hk2. }
    rewrite filter_cons_True by reflexivity. simpl.
    rewrite <- Permutation_middle. constructor. exact IH.
Qed.

(** X13: after [setIssues], walking the tree as the view does (the root's
    file nodes, then the children of each) meets every issue of the input
    exactly once, under the node of its own file; this for issues whose file
    path is not empty, the empty path being read as no parent. *)
Theorem tree_shows_every_issue_once (issues : list SonarIssue) (p : SonarIssuesProvider) :
  (∀ i, i ∈ issues → filePath i ≠ "") →
  flat_map (fun node => getChildren (setIssues issues p) (Some node))
           (getChildren (setIssues issues p) None)
  ≡ₚ IssueNode <$> issues
  ∧ ∀ f i, FileNode f ∈ getChildren (setIssues issues p) None →
           IssueNode i ∈ getChildren (setIssues issues p) (Some (FileNode f)) →
           i ∈ issues ∧ filePath i = f.
Proof.
  intros Hpaths.
  set (m := issuesByFile (setIssues issues p)).
  assert (Hlookup : ∀ f, default [] (m !! f) = filter (fun i => filePath i = f) issues).
  { intros f. unfold m. simpl. rewrite foldl_groupIssue_lookup, lookup_empty.
    by destruct (filter _ issues). }
  destruct (sortedKeys_spec m) as (_ & Hnodup & Hkeys).
  assert (Hkey : ∀ f, f ∈ sortedKeys m → f ≠ "").
  { intros f Hf. apply Hkeys in Hf as [here Hhere].
    specialize (Hlookup f). rewrite Hhere in Hlookup. simpl in Hlookup.
    destruct here as [| i here].
    - unfold m in Hhere. simpl in Hhere.
      rewrite foldl_groupIssue_lookup, lookup_empty in Hhere.
      by destruct (filter _ issues).
    - assert (Hi : i ∈ filter (fun i => filePath i = f) issues)
        by (rewrite <- Hlookup; left).
      apply list_elem_of_filter in Hi as [<- Hi]. by apply Hpaths. }
  assert (Hchildren : ∀ f, f ≠ "" →
    getChildren (setIssues issues p) (Some (FileNode f))
    = IssueNode <$> filter (fun i => filePath i = f) issues).
  { intros f Hf. unfold getChildren. destruct f as [| c s]; [done |].
    simpl elementMissing. cbv iota. fold m. by rewrite Hlookup. }
  assert (Hroot : getChildren (setIssues issues p) None = FileNode <$> sortedKeys m)
    by reflexivity.
  split.
  - rewrite Hroot, flat_map_fmap.
    rewrite (flat_map_ext_elem _
               (fun f => IssueNode <$> filter (fun i => filePath i = f) issues)).
    2:{ intros f Hf. apply Hchildren, Hkey, Hf. }
    rewrite <- fmap_flat_map. apply fmap_Permutation, grouping_Permutation; [exact Hnodup |].
    intros i Hi. apply Hkeys. unfold m. simpl.
    rewrite foldl_groupIssue_lookup, lookup_empty.
    destruct (filter (fun j => filePath j = filePath i) issues) as [| j here] eqn:Hfilter;
      [| by eexists].
    assert (Hin : i ∈ filter (fun j => filePath j = filePath i) issues)
      by (apply list_elem_of_filter; by split).
    rewrite Hfilter in Hin. by apply elem_of_nil in Hin.
  - intros f i Hf Hi. rewrite Hroot in Hf.
    apply list_elem_of_fmap in Hf as (g & Hg & Hf). inversion Hg; subst g.
    rewrite (Hchildren f (Hkey f Hf)) in Hi.
    apply list_elem_of_fmap in Hi as (j & Hj & Hi). inversion Hj; subst j.
    apply list_elem_of_filter in Hi as [Hfile Hi]. by split.
Qed.

Lemma tree_shows_every_issue_once_witness :
  flat_map (fun node =>
              getChildren (setIssues [lintIssueIn "/w/src/c.ts"; issueA;
                                      lintIssueIn "/w/src/a.ts"] oneFileStore)
                          (Some node))
           (getChildren (setIssues [lintIssueIn "/w/src/c.ts"; issueA;
                                    lintIssueIn "/w/src/a.ts"] oneFileStore) None)
  ≡ₚ IssueNode <$> [lintIssueIn "/w/src/c.ts"; issueA; lintIssueIn "/w/src/a.ts"]
  ∧ ∀ f i,
      FileNode f ∈ getChildren (setIssues [lintIssueIn "/w/src/c.ts"; issueA;
                                           lintIssueIn "/w/src/a.ts"] oneFileStore) None →
      IssueNode i ∈ getChildren (setIssues [lintIssueIn "/w/src/c.ts"; issueA;
                                            lintIssueIn "/w/src/a.ts"] oneFileStore)
                                (Some (FileNode f)) →
      i ∈ [lintIssueIn "/w/src/c.ts"; issueA; lintIssueIn "/w/src/a.ts"] ∧ filePath i = f.
Proof.
  apply tree_shows_every_issue_once.
  intros i Hi. rewrite !elem_of_cons in Hi.
  destruct Hi as [-> | [-> | [-> | Hi]]]; [discriminate .. |].
  by apply elem_of_nil in Hi.
Defined.

(** ** The reconciler on any input *)

Lemma filterByWorkspace_no_component (env : Env) (r : Raw.Issue) (l : list Raw.Issue)
    (projectKey : option string) (workspaceRoot : string) (currentFile : option string) :
  Raw.component r = None →
  filterByWorkspace env (r :: l) projectKey workspaceRoot currentFile = Raise typeError.
Proof.
  intros Hc. unfold filterByWorkspace. simpl. unfold inWorkspace, componentOf.
  by rewrite Hc.
Qed.

(** X14: [filterByWorkspace] throws a [TypeError] exactly when some record
    of its input has no component, wherever it stands and whatever the other
    records are.  Otherwise it returns at most one issue per record, each
    for a file that exists, with a message, a rule and a severity that are
    not empty and a line that is not zero, and each in the current file
    when one is supplied. *)
Theorem filterByWorkspace_outcome (env : Env) (rawIssues : list Raw.Issue)
    (projectKey : option string) (workspaceRoot : string) (currentFile : option string) :
  match filterByWorkspace env rawIssues projectKey workspaceRoot currentFile with
  | Val out =>
      Forall (fun r => is_Some (Raw.component r)) rawIssues
      ∧ (length out ≤ length rawIssues)%nat
      ∧ Forall (fun i =>
          existsSync env (filePath i) = true
          ∧ message i ≠ "" ∧ rule i ≠ "" ∧ severity i ≠ ""
          ∧ line i ≠ 0
          ∧ (Js.truthy currentFile = true → currentFile = Some (filePath i))) out
  | Raise e => e = typeError ∧ Exists (fun r => Raw.component r = None) rawIssues
  | OutOfFuel => False
  end.
Proof.
  assert (Hor : ∀ v d, d ≠ "" → Js.or v d ≠ "").
  { intros [s |] d Hd; simpl; [| exact Hd]. by destruct (String.eqb_spec s ""). }
  induction rawIssues as [| r l IH]; [by split_and! |].
  destruct (Raw.component r) as [c |] eqn:Hc.
  2:{ rewrite filterByWorkspace_no_component by exact Hc.
      split; [reflexivity | by left]. }
  rewrite (filterByWorkspace_cons env projectKey workspaceRoot currentFile r c l Hc).
  destruct (filterByWorkspace env l projectKey workspaceRoot currentFile)
    as [out | e |]; [| | exact IH].
  2:{ destruct IH as [-> IH]. split; [reflexivity | by right]. }
  destruct IH as (Hall & Hlen & Hout).
  rewrite (reconciled_component env projectKey workspaceRoot currentFile r c Hc).
  split; [constructor; [by eexists | exact Hall] |].
  destruct (existsSync env (componentPath env projectKey workspaceRoot c)) eqn:Hexists;
    simpl; [| split; [lia | exact Hout]].
  destruct (Js.truthy currentFile) eqn:Htruthy.
  - destruct (String.eqb_spec (componentPath env projectKey workspaceRoot c)
                (Js.tpl currentFile)) as [Hsame | _];
      simpl; [| split; [lia | exact Hout]].
    split; [lia |]. constructor; [| exact Hout]. simpl.
    split_and!; [exact Hexists | by apply Hor .. | | ].
    + destruct (Raw.textRange r ≫= Raw.startLine) as [n |]; simpl; [| done].
      by destruct (Z.eqb_spec n 0).
    + intros _. destruct currentFile as [cf |]; [| discriminate]. by rewrite Hsame.
  - simpl. split; [lia |]. constructor; [| exact Hout]. simpl.
    split_and!; [exact Hexists | by apply Hor .. | | done].
    destruct (Raw.textRange r ≫= Raw.startLine) as [n |]; simpl; [| done].
    by destruct (Z.eqb_spec n 0).
Qed.

(** ** How long the fetch runs *)

Lemma fetchIssues_all_files (env : Env) (fuel : nat) (server token projectKey : option string)
    (w : World) :
  fetchIssues env fuel server token projectKey None w
  = fetchPages env fuel (searchRequest env server token projectKey "") 1 []
      (emitted [ConsoleLog "extraFilter "] w).
Proof. reflexivity. Qed.

Section FetchLength.

Variable env : Env.
Variable request : Z → Request.t.

Lemma verdict_more_total (page : Z) (records : list Raw.Issue) :
  verdict env request page = MorePages records →
  ∃ data pg, fetch env (request page) = HttpResponse true (inr data)
             ∧ paging data = Some pg
             ∧ totalCovered (total pg) (page * pageSize) = false.
Proof.
  unfold verdict. intros Hv.
  destruct (fetch env (request page)) as [e | [|] [e | data]]; try discriminate.
  exists data.
  destruct (issues data) as [[| r rs] |]; try discriminate.
  destruct (paging data) as [pg |]; [| discriminate].
  exists pg. split_and!; try reflexivity.
  by destruct (totalCovered (total pg) (page * pageSize)).
Qed.

(** With totals that never exceed [page + k] pages, the loop stops within
    [k + 1] requests. *)
Lemma paginates_bounded (limit : Z) :
  (∀ rq data pg, fetch env rq = HttpResponse true (inr data) → paging data = Some pg →
     ∃ t, total pg = Some t ∧ (t ≤ limit)%Z) →
  ∀ k page acc,
    (limit ≤ (page + Z.of_nat k) * pageSize)%Z →
    ∃ n r, (n ≤ S k)%nat ∧ Paginates env request page acc n r.
Proof.
  intros Htotal. induction k as [| k IH]; intros page acc Hlimit;
    destruct (verdict env request page) as [e | | | records | records] eqn:Hv;
    try (exists 1%nat; eexists; split; [lia |]; by econstructor).
  - apply verdict_more_total in Hv as (data & pg & Hfetch & Hpg & Hcov).
    destruct (Htotal _ _ _ Hfetch Hpg) as (t & Ht & Hle).
    rewrite Ht in Hcov. simpl in Hcov. apply Z.leb_gt in Hcov. lia.
  - destruct (IH (page + 1)%Z (acc ++ records)) as (n & r & Hn & Hp).
    { unfold pageSize in *. lia. }
    exists (S n), r. split; [lia |]. by eapply paginates_more.
Qed.

(** Against pages that always ask for more, the loop uses all its fuel. *)
Lemma fetchPages_never_stops :
  (∀ page, ∃ records, verdict env request page = MorePages records) →
  ∀ fuel page acc w,
    fetchPages env fuel request page acc w
    = (OutOfFuel, requested (request <$> pagesFrom page fuel) w).
Proof.
  intros Hmore. induction fuel as [| fuel IH]; intros page acc w.
  - simpl. by rewrite requested_nil.
  - destruct (Hmore page) as [records Hv].
    rewrite fetchPages_step, Hv, IH, pagesFrom_S, requested_app. reflexivity.
Qed.

End FetchLength.

(** X15: the remote fetch stops once the reported total is covered: when
    no response reports a total above [pages] pages of 500 records, the fetch
    ends within [pages] requests, and fuel for [pages] turns of the loop is
    enough for it to return or throw. *)
Theorem fetchIssues_page_bound (env : Env) (fuel : nat)
    (server token projectKey filePath : option string) (w : World) (pages : nat) :
  (1 ≤ pages)%nat →
  (∀ rq data pg, fetch env rq = HttpResponse true (inr data) → paging data = Some pg →
     ∃ t, total pg = Some t ∧ (t ≤ Z.of_nat pages * pageSize)%Z) →
  (pages ≤ fuel)%nat →
  (fetchIssues env fuel server token projectKey filePath w).1 ≠ OutOfFuel
  ∧ (length (httpRequests (trace (fetchIssues env fuel server token projectKey filePath w).2))
     ≤ length (httpRequests (trace w)) + pages)%nat.
Proof.
  intros Hpages Htotal Hfuel.
  assert (Hloop : ∀ extraFilter w0,
    httpRequests (trace w0) = httpRequests (trace w) →
    (fetchPages env fuel (searchRequest env server token projectKey extraFilter) 1 [] w0).1
    ≠ OutOfFuel
    ∧ (length (httpRequests (trace
         (fetchPages env fuel (searchRequest env server token projectKey extraFilter)
            1 [] w0).2))
       ≤ length (httpRequests (trace w)) + pages)%nat).
  { intros extraFilter w0 Hw0.
    destruct (paginates_bounded env (searchRequest env server token projectKey extraFilter)
                (Z.of_nat pages * pageSize) Htotal (pages - 1) 1 [])
      as (n & r & Hn & Hp).
    { unfold pageSize. lia. }
    rewrite (fetchPages_complete env _ 1 [] n r Hp fuel w0) by lia. simpl. split.
    - intros ->. clear -Hp.
      remember (@OutOfFuel (list Raw.Issue)) as r eqn:Hr.
      induction Hp; congruence.
    - rewrite httpRequests_app, httpRequests_requests, length_app, length_fmap, Hw0.
      unfold pagesFrom. rewrite length_fmap, length_seq. lia. }
  unfold fetchIssues. unfold bind at 1 3.
  destruct (Js.truthy filePath).
  - destruct (workspaceFolders env) as [[| root rest] |]; simpl;
      try (split; [discriminate | lia]).
    apply Hloop. simpl. by rewrite httpRequests_app, app_nil_r.
  - apply Hloop. simpl. by rewrite httpRequests_app, app_nil_r.
Qed.

Lemma fetchIssues_page_bound_witness :
  (fetchIssues (hostWith (inr fullConfig) serverPaged lintClean) 3
     (Some "http://sonar.local") (Some "squ_token") (Some "proj") None
     (worldAfterActivate ["MAJOR"])).1 ≠ OutOfFuel
  ∧ (length (httpRequests (trace
       (fetchIssues (hostWith (inr fullConfig) serverPaged lintClean) 3
          (Some "http://sonar.local") (Some "squ_token") (Some "proj") None
          (worldAfterActivate ["MAJOR"])).2))
     ≤ length (httpRequests (trace (worldAfterActivate ["MAJOR"]))) + 3)%nat.
Proof.
  apply fetchIssues_page_bound; [lia | | lia].
  intros rq data pg Hfetch Hpg. simpl in Hfetch. unfold serverPaged in Hfetch.
  inversion Hfetch; subst data. simpl in Hpg. inversion Hpg; subst pg.
  exists 1200%Z. split; [reflexivity | unfold pageSize; lia].
Defined.

(** X16: the loop of the fetch has no bound of its own.  Against a server
    whose every page carries records and no [paging.total] (the comparison
    with an undefined total is false), the fetch never returns: it sends a
    request per turn for as long as it is let run. *)
Theorem fetchIssues_never_stops (env : Env) (server token projectKey : option string)
    (w : World) (fuel : nat) :
  (∀ rq, ∃ r rs pg,
     fetch env rq = HttpResponse true (inr (mkSearchResponse (Some (r :: rs)) (Some pg)))
     ∧ total pg = None) →
  (fetchIssues env fuel server token projectKey None w).1 = OutOfFuel
  ∧ length (httpRequests (trace (fetchIssues env fuel server token projectKey None w).2))
    = (length (httpRequests (trace w)) + fuel)%nat.
Proof.
  intros Hserver.
  rewrite fetchIssues_all_files, fetchPages_never_stops.
  - simpl. split; [reflexivity |].
    rewrite !httpRequests_app, httpRequests_requests, !length_app, length_fmap.
    unfold pagesFrom. rewrite length_fmap, length_seq. simpl. lia.
  - intros page. destruct (Hserver (searchRequest env server token projectKey "" page))
      as (r & rs & pg & Hfetch & Htotal).
    exists (r :: rs). unfold verdict. rewrite Hfetch. simpl. by rewrite Htotal.
Qed.

Lemma fetchIssues_never_stops_witness :
  (fetchIssues (hostWith (inr fullConfig) serverNoTotal lintClean) 40
     (Some "http://sonar.local") (Some "squ_token") (Some "proj") None
     (worldAfterActivate ["MAJOR"])).1 = OutOfFuel
  ∧ length (httpRequests (trace
      (fetchIssues (hostWith (inr fullConfig) serverNoTotal lintClean) 40
         (Some "http://sonar.local") (Some "squ_token") (Some "proj") None
         (worldAfterActivate ["MAJOR"])).2))
    = (length (httpRequests (trace (worldAfterActivate ["MAJOR"]))) + 40)%nat.
Proof.
  apply fetchIssues_never_stops.
  intros rq. exists recordA, [], (mkPaging None). split; reflexivity.
Defined.

(** ** Commands and listeners *)

Lemma refreshAndShow_run (env : Env) (fuel : nat) (w : World) :
  refreshAndShow env fuel w
  = match refreshAllIssues env fuel (currentMode w) w with
    | (Val issues, w1) =>
        updateStatusBar (length issues) (withProvider (setIssues issues (provider w1)) w1)
    | (Raise e, w1) => (Raise e, w1)
    | (OutOfFuel, w1) => (OutOfFuel, w1)
    end.
Proof.
  unfold refreshAndShow, bind, gets, modify.
  by destruct (refreshAllIssues env fuel (currentMode w) w) as [[issues | e |] w1].
Qed.

(** What a refresh cycle does to the session: it keeps the mode, the
    selection and the auto-refresh flag; when it returns, the tree holds the
    issues it found, all of a selected severity, and the status bar names the
    mode. *)
Lemma refreshAndShow_outcome (env : Env) (fuel : nat) (w : World) :
  ∃ evs issues,
    asksSelected env evs
    ∧ Forall (fun i => severity i ∈ selectedSeverities w) issues
    ∧ currentMode (refreshAndShow env fuel w).2 = currentMode w
    ∧ selectedSeverities (refreshAndShow env fuel w).2 = selectedSeverities w
    ∧ autoRefreshEnabled (refreshAndShow env fuel w).2 = autoRefreshEnabled w
    ∧ trace (refreshAndShow env fuel w).2 = trace w ++ evs
    ∧ match (refreshAndShow env fuel w).1 with
      | Val _ =>
          provider (refreshAndShow env fuel w).2 = setIssues issues (provider w)
          ∧ statusBarItem (refreshAndShow env fuel w).2
            = (fun _ => statusBarIn (currentMode w)) <$> statusBarItem w
      | Raise _ => False
      | OutOfFuel => newHorizon (currentMode w) = false
      end.
Proof.
  rewrite refreshAndShow_run.
  destruct (refreshAllIssues_cases env fuel (currentMode w) w)
    as [(evs & -> & Hasks) | [(evs & -> & Hmode & Hasks)
                              | (evs & s & l & -> & _ & _ & Hasks)]].
  - exists evs, []. unfold updateStatusBar, modify. simpl.
    destruct (statusBarItem w) eqn:Hbar; simpl; rewrite ?Hbar;
      split_and!; first [done | constructor].
  - exists evs, []. simpl. split_and!; first [done | constructor].
  - exists evs, (filterBySeverity (selectedSeverities w) s
                 ++ filterBySeverity (selectedSeverities w) l).
    unfold updateStatusBar, modify, published. simpl.
    assert (Hsel : Forall (fun i => severity i ∈ selectedSeverities w)
                     (filterBySeverity (selectedSeverities w) s
                      ++ filterBySeverity (selectedSeverities w) l))
      by (apply Forall_app; split; apply filterBySeverity_within).
    destruct (statusBarItem w) eqn:Hbar; simpl; rewrite ?Hbar; by split_and!.
Qed.

Lemma clearIssuesCommand_run (w : World) :
  (clearIssuesCommand w).1 = Val tt
  ∧ diagnosticCollection (clearIssuesCommand w).2 = ∅
  ∧ provider (clearIssuesCommand w).2 = setIssues [] (provider w)
  ∧ autoRefreshEnabled (clearIssuesCommand w).2 = false
  ∧ currentMode (clearIssuesCommand w).2 = currentMode w
  ∧ selectedSeverities (clearIssuesCommand w).2 = selectedSeverities w.
Proof.
  unfold clearIssuesCommand, bind, updateStatusBar, emit, modify. simpl.
  destruct (statusBarItem w); simpl; by split_and!.
Qed.

(** X17: the clear command empties the markers and the tree, which then
    shows the placeholder, and switches refresh-on-save off: saving a
    document afterwards does nothing at all.  The refresh command switches
    it on again, whatever its refresh finds, and the next save refreshes. *)
Theorem clear_suspends_refresh_on_save (env : Env) (fuel : nat) (w : World) :
  diagnosticCollection (clearIssuesCommand w).2 = ∅
  ∧ issuesByFile (provider (clearIssuesCommand w).2) = ∅
  ∧ treeView (provider (clearIssuesCommand w).2)
    = (fun _ => TreeView.mk (Some noIssuesMessage)) <$> treeView (provider w)
  ∧ onDidSaveTextDocument env fuel (clearIssuesCommand w).2
    = (Val tt, (clearIssuesCommand w).2)
  ∧ onDidSaveTextDocument env fuel
      (refreshIssuesCommand env fuel (clearIssuesCommand w).2).2
    = refreshAndShow env fuel (refreshIssuesCommand env fuel (clearIssuesCommand w).2).2.
Proof.
  destruct (clearIssuesCommand_run w) as (_ & Hdiag & Hprov & Hauto & _).
  split_and!.
  - exact Hdiag.
  - by rewrite Hprov.
  - rewrite Hprov. simpl. by destruct (treeView (provider w)).
  - unfold onDidSaveTextDocument, bind, gets. by rewrite Hauto.
  - set (w1 := (clearIssuesCommand w).2).
    assert (Hon : autoRefreshEnabled (refreshIssuesCommand env fuel w1).2 = true).
    { unfold refreshIssuesCommand, bind, modify.
      destruct (refreshAndShow_outcome env fuel (withAutoRefresh true w1))
        as (evs & issues & _ & _ & _ & _ & Hflag & _).
      exact Hflag. }
    unfold onDidSaveTextDocument at 1. unfold bind, gets. by rewrite Hon.
Qed.

(** X18: the listener of editor changes does not look at the auto-refresh
    flag.  After the clear command, a change of editor in a current-file
    mode runs a full refresh cycle, which fills the tree and the markers
    again; in an all-files mode, or with no editor left, it does nothing. *)
Theorem editor_change_refreshes_after_clear (env : Env) (fuel : nat) (w : World) :
  autoRefreshEnabled (clearIssuesCommand w).2 = false
  ∧ onDidChangeActiveTextEditor env fuel true (clearIssuesCommand w).2
    = (if fileBreadth (currentMode w)
       then refreshAndShow env fuel (clearIssuesCommand w).2
       else (Val tt, (clearIssuesCommand w).2))
  ∧ onDidChangeActiveTextEditor env fuel false (clearIssuesCommand w).2
    = (Val tt, (clearIssuesCommand w).2).
Proof.
  destruct (clearIssuesCommand_run w) as (_ & _ & _ & Hauto & Hmode & _).
  split_and!; [exact Hauto | | reflexivity].
  unfold onDidChangeActiveTextEditor, bind, gets.
  change (negb true) with false. cbv beta iota.
  rewrite Hmode. by destruct (currentMode w).
Qed.

(** X19: each label the filter command offers selects a mode of its own;
    the command then runs a refresh cycle in that mode, after which the mode
    is the chosen one and the status bar, when there is one, names it.
    Dismissing the quick pick changes nothing. *)
Theorem setFilterCommand_choice (env : Env) (fuel : nat) (w : World) (choice : string) :
  choice ∈ filterChoices →
  ∃ mode,
    modeOfChoice choice = Some mode
    ∧ (∀ other, other ∈ filterChoices → modeOfChoice other = Some mode → other = choice)
    ∧ setFilterCommand env fuel (Some choice) w = refreshAndShow env fuel (withMode mode w)
    ∧ currentMode (setFilterCommand env fuel (Some choice) w).2 = mode
    ∧ ((setFilterCommand env fuel (Some choice) w).1 = Val tt →
       statusBarItem (setFilterCommand env fuel (Some choice) w).2
       = (fun _ => statusBarIn mode) <$> statusBarItem w)
    ∧ setFilterCommand env fuel None w = (Val tt, w).
Proof.
  intros Hchoice.
  assert (Hrun : ∀ mode, modeOfChoice choice = Some mode → choice ≠ "" →
    setFilterCommand env fuel (Some choice) w = refreshAndShow env fuel (withMode mode w)).
  { intros mode Hmode Hne. unfold setFilterCommand. simpl.
    destruct (String.eqb_spec choice "") as [-> | _]; [done |]. simpl.
    unfold bind at 1. unfold modify. by rewrite Hmode. }
  assert (Hafter : ∀ mode,
    setFilterCommand env fuel (Some choice) w = refreshAndShow env fuel (withMode mode w) →
    currentMode (setFilterCommand env fuel (Some choice) w).2 = mode
    ∧ ((setFilterCommand env fuel (Some choice) w).1 = Val tt →
       statusBarItem (setFilterCommand env fuel (Some choice) w).2
       = (fun _ => statusBarIn mode) <$> statusBarItem w)).
  { intros mode ->.
    destruct (refreshAndShow_outcome env fuel (withMode mode w))
      as (evs & issues & _ & _ & Hmode & _ & _ & _ & Hres).
    split; [exact Hmode |]. intros Hval. rewrite Hval in Hres. by destruct Hres. }
  assert (Hother : ∀ mode, modeOfChoice choice = Some mode →
    ∀ other, other ∈ filterChoices → modeOfChoice other = Some mode → other = choice).
  { intros mode Hmode other Hin Hsame. unfold filterChoices in *.
    rewrite !elem_of_cons in Hin, Hchoice.
    destruct Hchoice as [-> | [-> | [-> | [-> | Hc]]]];
      [| | | | by apply elem_of_nil in Hc];
      destruct Hin as [-> | [-> | [-> | [-> | Ho]]]];
      try (by apply elem_of_nil in Ho);
      try reflexivity;
      vm_compute in Hmode, Hsame; congruence. }
  unfold filterChoices in Hchoice. rewrite !elem_of_cons in Hchoice.
  destruct Hchoice as [E | [E | [E | [E | E]]]]; [| | | | by apply elem_of_nil in E];
    [exists OverallAll | exists OverallFile | exists NewAll | exists NewFile];
    (assert (Hmode : modeOfChoice choice = Some _) by (rewrite E; reflexivity));
    (assert (Hne : choice ≠ "") by (rewrite E; discriminate));
    (split; [exact Hmode |]);
    (split; [exact (Hother _ Hmode) |]);
    (split; [exact (Hrun _ Hmode Hne) |]);
    destruct (Hafter _ (Hrun _ Hmode Hne)) as [H1 H2];
    by split_and!.
Qed.

Lemma setFilterCommand_choice_witness :
  ∃ mode,
    modeOfChoice "Current file (New Code)" = Some mode
    ∧ (∀ other, other ∈ filterChoices → modeOfChoice other = Some mode →
                other = "Current file (New Code)")
    ∧ setFilterCommand plainHost 5 (Some "Current file (New Code)")
        (worldAfterActivate ["MAJOR"])
      = refreshAndShow plainHost 5 (withMode mode (worldAfterActivate ["MAJOR"]))
    ∧ currentMode (setFilterCommand plainHost 5 (Some "Current file (New Code)")
                     (worldAfterActivate ["MAJOR"])).2 = mode
    ∧ ((setFilterCommand plainHost 5 (Some "Current file (New Code)")
          (worldAfterActivate ["MAJOR"])).1 = Val tt →
       statusBarItem (setFilterCommand plainHost 5 (Some "Current file (New Code)")
                        (worldAfterActivate ["MAJOR"])).2
       = (fun _ => statusBarIn mode) <$> statusBarItem (worldAfterActivate ["MAJOR"]))
    ∧ setFilterCommand plainHost 5 None (worldAfterActivate ["MAJOR"])
      = (Val tt, worldAfterActivate ["MAJOR"]).
Proof.
  apply setFilterCommand_choice.
  unfold filterChoices. rewrite !elem_of_cons. auto.
Defined.

(** X20: once the severities are picked and the setting is written, the
    extension's selection and the setting agree on the picked labels:
    the refresh that follows asks the server for exactly these severities in
    every request it sends, refresh-on-save is on, and when the cycle returns,
    every issue in the tree has one of them. *)
Theorem selectSeverities_in_sync (env : Env) (fuel : nat) (items : list (string * bool))
    (w : World) :
  ∃ evs,
    configuredSeverities (selectSeverities env fuel (Some items) (inr tt) w).1
    = fst <$> items
    ∧ selectedSeverities (selectSeverities env fuel (Some items) (inr tt) w).2.2
      = fst <$> items
    ∧ autoRefreshEnabled (selectSeverities env fuel (Some items) (inr tt) w).2.2 = true
    ∧ trace (selectSeverities env fuel (Some items) (inr tt) w).2.2 = trace w ++ evs
    ∧ Forall (fun rq => Request.severities rq = Js.join "," (fst <$> items))
             (httpRequests evs)
    ∧ ((selectSeverities env fuel (Some items) (inr tt) w).2.1 = Val tt →
       ∀ f here,
         issuesByFile (provider (selectSeverities env fuel (Some items) (inr tt) w).2.2)
           !! f = Some here →
         Forall (fun i => severity i ∈ fst <$> items) here).
Proof.
  unfold selectSeverities. simpl.
  unfold refreshIssuesCommand, bind, modify.
  set (w1 := withAutoRefresh true (withSelectedSeverities (fst <$> items) w)).
  destruct (refreshAndShow_outcome (withSetting (fst <$> items) env) fuel w1)
    as (evs & issues & Hasks & Hsel & _ & Hselected & Hauto & Htrace & Hres).
  exists evs. split_and!; [reflexivity | exact Hselected | exact Hauto | exact Htrace
                           | exact Hasks |].
  intros Hval f here Hhere. rewrite Hval in Hres. destruct Hres as [Hprov _].
  rewrite Hprov in Hhere. simpl in Hhere.
  rewrite foldl_groupIssue_lookup, lookup_empty in Hhere.
  assert (Hsub : here = filter (fun i => filePath i = f) issues).
  { destruct (filter (fun i => filePath i = f) issues); [discriminate |].
    by inversion Hhere. }
  subst here. apply Forall_forall. intros i Hi.
  apply list_elem_of_filter in Hi as [_ Hi].
  rewrite Forall_forall in Hsel. exact (Hsel i Hi).
Qed.

(** ** The hardened copy *)

(** X21: in the hardened copy of [refreshAllIssues], the flag
    [fetchSuccess] is set by the remote block only, and the remote block runs
    in the overall modes only.  So while the current mode is a new-code
    mode, a refresh returns no issue and publishes nothing, whatever the
    lint engine reports. *)
Theorem hardened_new_code_returns_nothing (env : Env) (fuel : nat) (mode : Mode)
    (w : World) :
  newHorizon (currentMode w) = true →
  ∃ w', Hardened.refreshAllIssues env fuel mode w = (Val [], w')
        ∧ diagnosticCollection w' = diagnosticCollection w.
Proof.
  intros Hnew.
  assert (Hoverall : Js.startsWith (modeName (currentMode w)) "overall-" = false)
    by (destruct (currentMode w); [discriminate .. | reflexivity | reflexivity]).
  assert (Hnewer : Js.startsWith (modeName (currentMode w)) "new-" = true)
    by (destruct (currentMode w); [discriminate .. | reflexivity | reflexivity]).
  unfold Hardened.refreshAllIssues, tryCatch.
  destruct (workspaceFolders env) as [[| root rest] |];
    [eexists; split; reflexivity | | eexists; split; reflexivity].
  unfold bind at 1. unfold ret at 1.
  destruct (existsSync env _); simpl; [| eexists; split; reflexivity].
  unfold bind at 1.
  destruct (readConfig env _) as [e | config]; simpl; [eexists; split; reflexivity |].
  destruct (negb (Js.truthy (Config.server config))
            || negb (Js.truthy (Config.token config))
            || negb (Js.truthy (Config.projectKey config)));
    [eexists; split; reflexivity |].
  unfold bind at 1. unfold gets at 1. rewrite Hoverall, Hnewer.
  unfold tryCatch, runESLintAnalysis, bind, emit, modify, gets, updateStatusBar, ret.
  simpl.
  destruct (lintFiles env _) as [e | results]; simpl;
    destruct (statusBarItem w); eexists; split; reflexivity.
Qed.

Lemma hardened_new_code_returns_nothing_witness :
  ∃ w',
    Hardened.refreshAllIssues (hostWith (inr fullConfig) serverOnePage lintFindings) 5
      NewAll (withMode NewAll (worldAfterActivate ["CRITICAL"])) = (Val [], w')
    ∧ diagnosticCollection w'
      = diagnosticCollection (withMode NewAll (worldAfterActivate ["CRITICAL"])).
Proof. apply hardened_new_code_returns_nothing. reflexivity. Defined.
